(** * The Telegram facade (src/telegram.js)

    A shallow embedding of the [Telegram] class: JavaScript values, an object
    heap, and a small monad that threads the heap, records the calls the
    class makes into its collaborators, and propagates exceptions.  The two
    layers handed to the constructor (MTProto and TL) and the client class are
    not part of the file; their functions are native functions of the
    embedding, whose behaviour is a parameter. *)

From Stdlib Require Import ZArith String List.
From stdpp Require Import base option gmap strings list fin_maps.

Local Open Scope string_scope.
Local Open Scope list_scope.

(** ** Values and objects *)

Abbreviation loc := positive (only parsing).
Abbreviation fid := string (only parsing).

(** Numbers are restricted to the integers ([size], [length]); a double that
    is not an integer, and NaN, are outside the embedding. *)
Inductive value : Type :=
| VUndefined
| VNull
| VBool (b : bool)
| VNum (n : Z)
| VStr (s : string)
| VRef (l : loc).

#[global] Instance value_eq_dec : EqDecision value.
Proof. solve_decision. Defined.

(** An object has own data properties; a function object also names the
    native function it runs.  Prototype chains, accessors and proxies are not
    modelled: none of the property names the class reads lives on a built-in
    prototype. *)
Record obj : Type := Obj { callable : option fid; props : gmap string value }.

#[global] Instance obj_eq_dec : EqDecision obj.
Proof. solve_decision. Defined.

Abbreviation heap := (gmap positive obj) (only parsing).

Definition plain (kvs : list (string * value)) : obj := Obj None (list_to_map kvs).
Definition func (f : fid) (kvs : list (string * value)) : obj := Obj (Some f) (list_to_map kvs).

(** [ToBoolean]: what [!v] tests. *)
Definition truthy (v : value) : bool :=
  match v with
  | VUndefined | VNull => false
  | VBool b => b
  | VNum n => negb (n =? 0)%Z
  | VStr s => negb (String.eqb s "")
  | VRef _ => true
  end.

(** A default parameter value replaces exactly [undefined]. *)
Definition default_arg (v d : value) : value :=
  match v with VUndefined => d | _ => v end.

(** Reading [l.p] in a heap, [undefined] when there is no such own property. *)
Definition field (h : heap) (l : loc) (p : string) : value :=
  default VUndefined (h !! l ≫= λ o, props o !! p).

Definition callable_at (h : heap) (v : value) : option fid :=
  match v with VRef l => h !! l ≫= callable | _ => None end.

(** ** Calls into the collaborators *)

Inductive call_kind : Type := Call | Construct.

#[global] Instance call_kind_eq_dec : EqDecision call_kind.
Proof. solve_decision. Defined.

(** One call made by the class: [f.call(this, ...args)] or [new f(...args)]. *)
Record event : Type :=
  Ev { ev_kind : call_kind; ev_fn : fid; ev_this : value; ev_args : list value }.

#[global] Instance event_eq_dec : EqDecision event.
Proof. solve_decision. Defined.

(** A native function returns or throws a value, and leaves a heap. *)
Inductive completion : Type := Normal (v : value) | Abrupt (v : value).

Definition native_fn : Type :=
  fid → call_kind → value → list value → heap → completion * heap.

(** What a call leaves behind.  Objects never disappear and a function
    object never becomes another function: an object that existed before the
    call is still there, running the same code, with the properties the
    native function gave it; objects the native function added are new. *)
Definition keep_code (new old : obj) : option obj :=
  Some (Obj (callable old) (props new)).

Definition after (native : native_fn) (e : event) (h : heap) : heap :=
  union_with keep_code (native (ev_fn e) (ev_kind e) (ev_this e) (ev_args e) h).2 h.

Definition completes (native : native_fn) (e : event) (h : heap) : completion :=
  (native (ev_fn e) (ev_kind e) (ev_this e) (ev_args e) h).1.

(** ** The monad of the class's methods *)

Inductive exn : Type :=
| TypeError                (* raised by the language: a property of undefined or
                              null, a call of something that is no function *)
| Error (msg : string)     (* [throw new Error(msg)] in the class *)
| Foreign (v : value).     (* thrown inside a collaborator, passing through *)

Inductive result (A : Type) : Type := Ok (a : A) | Raise (e : exn).
Arguments Ok {A} a.
Arguments Raise {A} e.

Record outcome (A : Type) : Type :=
  Out { res : result A; final : heap; log : list event }.
Arguments Out {A} res final log.
Arguments res {A} o.
Arguments final {A} o.
Arguments log {A} o.

Definition M (A : Type) : Type := heap → outcome A.

Definition ret {A} (a : A) : M A := λ h, Out (Ok a) h [].
Definition throw {A} (e : exn) : M A := λ h, Out (Raise e) h [].
Definition bind {A B} (m : M A) (f : A → M B) : M B := λ h,
  let o := m h in
  match res o with
  | Ok a => let o' := f a (final o) in Out (res o') (final o') (log o ++ log o')
  | Raise e => Out (Raise e) (final o) (log o)
  end.

Declare Scope js_scope.
Delimit Scope js_scope with js.
Notation "'let*' x := m 'in' k" := (bind m (λ x, k))
  (at level 10, x name, m at level 100, k at level 200) : js_scope.
Notation "m ;;; k" := (bind m (λ _, k))
  (at level 100, k at level 200, right associativity) : js_scope.
Local Open Scope js_scope.

(** [v.p]: a TypeError on undefined and null; a primitive has none of the
    properties read here. *)
Definition read (h : heap) (v : value) (p : string) : result value :=
  match v with
  | VUndefined | VNull => Raise TypeError
  | VRef l => Ok (field h l p)
  | VBool _ | VNum _ | VStr _ => Ok VUndefined
  end.

Definition get_prop (v : value) (p : string) : M value := λ h, Out (read h v p) h [].

(** [v.p = x] in strict code (a class body). *)
Definition set_prop (v : value) (p : string) (x : value) : M unit := λ h,
  match v with
  | VRef l =>
      let o := default (Obj None ∅) (h !! l) in
      Out (Ok tt) (<[l := Obj (callable o) (<[p := x]> (props o))]> h) []
  | _ => Out (Raise TypeError) h []
  end.

(** An object literal, or the object [new] makes: a location not in use. *)
Definition alloc (o : obj) : M value := λ h,
  let l := fresh (dom h) in Out (Ok (VRef l)) (<[l := o]> h) [].

Section Natives.
Variable native : native_fn.

(** [f.call(this, ...args)] and [new f(...args)]: the call is recorded, the
    callee runs on the heap, its exception passes through. *)
Definition invoke (k : call_kind) (f this : value) (args : list value) : M value := λ h,
  match callable_at h f with
  | Some n =>
      let e := Ev k n this args in
      match completes native e h with
      | Normal v => Out (Ok v) (after native e h) [e]
      | Abrupt v => Out (Raise (Foreign v)) (after native e h) [e]
      end
  | None => Out (Raise TypeError) h []
  end.
End Natives.

(** ** The class *)

Module Telegram.
Section Class.
Variable native : native_fn.

(** The class the free identifier [TelegramClient] is bound to in the
    module's scope; the file itself does not define it. *)
Variable TelegramClient : value.

(** [new Telegram(MTProto, TL)]: [new] makes the object, the body runs on it. *)
Definition constructor (MTProto TL : value) : M value :=
  let* this := alloc (Obj None ∅) in
  if negb (truthy MTProto) || negb (truthy TL)
  then throw (Error "You must invoke new Telegram(MTProto, TypeLanguage)")
  else
    set_prop this "MTProto" MTProto ;;;
    set_prop this "TL" TL ;;;
    ret this.

Definition useSchema (this schema typePrefix servicePrefix : value) : M value :=
  let typePrefix := default_arg typePrefix (VStr "Telegram.type") in
  let servicePrefix := default_arg servicePrefix (VStr "Telegram.service") in
  let* TL := get_prop this "TL" in
  let* TypeBuilder := get_prop TL "TypeBuilder" in
  let* buildTypes := get_prop TypeBuilder "buildTypes" in
  let* type := alloc (plain [("_id", typePrefix)]) in
  let* constructors := get_prop schema "constructors" in
  invoke native Call buildTypes VUndefined [constructors; VNull; type; VBool false] ;;;
  let* service := alloc (plain [("_id", servicePrefix)]) in
  let* methods := get_prop schema "methods" in
  invoke native Call buildTypes VUndefined [methods; VNull; service; VBool true] ;;;
  let* imported := alloc (plain [("type", type); ("service", service)]) in
  set_prop this "schema" imported ;;;
  ret VUndefined.

Definition createClient (this : value) : M value :=
  let* schema := get_prop this "schema" in
  let* MTProto := get_prop this "MTProto" in
  let* TL := get_prop this "TL" in
  invoke native Construct TelegramClient VUndefined [schema; MTProto; TL].

Definition addPublicKey (this key : value) : M value :=
  let* fingerprint := get_prop key "fingerprint" in
  let* modulus := get_prop key "modulus" in
  let* exponent := get_prop key "exponent" in
  let* MTProto := get_prop this "MTProto" in
  let* security := get_prop MTProto "security" in
  let* PublicKey := get_prop security "PublicKey" in
  let* addKey := get_prop PublicKey "addKey" in
  let* arg := alloc (plain [("fingerprint", fingerprint); ("modulus", modulus);
                            ("exponent", exponent)]) in
  invoke native Call addKey PublicKey [arg] ;;;
  ret VUndefined.

Definition createAuthKey (this authKeyId authKeyBody : value) : M value :=
  let* MTProto := get_prop this "MTProto" in
  let* auth := get_prop MTProto "auth" in
  let* AuthKey := get_prop auth "AuthKey" in
  invoke native Construct AuthKey VUndefined [authKeyId; authKeyBody].

Definition decryptKey (this keyBuffer keyPassword : value) : M value :=
  let* MTProto := get_prop this "MTProto" in
  let* auth := get_prop MTProto "auth" in
  let* AuthKey := get_prop auth "AuthKey" in
  let* decryptAuthKey := get_prop AuthKey "decryptAuthKey" in
  invoke native Call decryptAuthKey AuthKey [keyBuffer; keyPassword].

Definition string2Buffer (this string length : value) : M value :=
  let* MTProto := get_prop this "MTProto" in
  let* utility := get_prop MTProto "utility" in
  let* f := get_prop utility "string2Buffer" in
  invoke native Call f utility [string; length].

Definition buffer2String (this buffer length : value) : M value :=
  let* MTProto := get_prop this "MTProto" in
  let* utility := get_prop MTProto "utility" in
  let* f := get_prop utility "buffer2String" in
  invoke native Call f utility [buffer; length].

Definition createRandomPassword (this size : value) : M value :=
  let size := default_arg size (VNum 128) in
  let* MTProto := get_prop this "MTProto" in
  let* util := get_prop MTProto "utility" in
  let* createRandomBuffer := get_prop util "createRandomBuffer" in
  let* buffer := invoke native Call createRandomBuffer util [size] in
  let* buffer2String := get_prop util "buffer2String" in
  invoke native Call buffer2String util [buffer].
End Class.
End Telegram.

(** ** Stand-ins for the collaborators

    Small executable layers to run the class against. *)

Module Double.
(** A Type Builder that registers every declaration of the mapping in the
    root under its name, keeping what the root already has; [_id] is the
    root's own and no declaration takes it.  Like a loop over the mapping's
    entries, the strict one throws when the mapping is no object; the
    lenient one (a [for]-[in] loop) then has nothing to do. *)
Definition buildTypes (strict : bool) (args : list value) (h : heap) : completion * heap :=
  match args with
  | [m; _; VRef t; _] =>
      match m, h !! t with
      | VRef lm, Some ot =>
          let decls := delete "_id" (default ∅ (props <$> h !! lm)) in
          (Normal VUndefined, <[t := Obj (callable ot) (props ot ∪ decls)]> h)
      | VRef _, None => (Abrupt (VStr "TypeError: no such module"), h)
      | _, _ =>
          if strict then (Abrupt (VStr "TypeError: schemas is not iterable"), h)
          else (Normal VUndefined, h)
      end
  | _ => (Abrupt (VStr "TypeError: no target module"), h)
  end.

(** Modelled from the spec: the client class, which is not in the file.  A
    ClientInstance holds references to the ImportedSchema, the transport
    layer and the schema layer it was created with. *)
Definition TelegramClient (args : list value) (h : heap) : completion * heap :=
  let l := fresh (dom h) in
  (Normal (VRef l),
   <[l := plain [("schema", default VUndefined (args !! 0%nat));
                 ("MTProto", default VUndefined (args !! 1%nat));
                 ("TL", default VUndefined (args !! 2%nat))]]> h).

(** The key store keeps the descriptor it is handed under [last], and
    rejects a descriptor whose fingerprint is no string. *)
Definition addKey (this : value) (args : list value) (h : heap) : completion * heap :=
  match this, args with
  | VRef s, [VRef k] =>
      match field h k "fingerprint" with
      | VStr _ =>
          let o := default (Obj None ∅) (h !! s) in
          (Normal VUndefined, <[s := Obj (callable o) (<["last" := VRef k]> (props o))]> h)
      | _ => (Abrupt (VStr "invalid fingerprint"), h)
      end
  | _, _ => (Abrupt (VStr "TypeError"), h)
  end.

Definition AuthKey (args : list value) (h : heap) : completion * heap :=
  let l := fresh (dom h) in
  (Normal (VRef l),
   <[l := plain [("id", default VUndefined (args !! 0%nat));
                 ("value", default VUndefined (args !! 1%nat))]]> h).

Definition createRandomBuffer (args : list value) (h : heap) : completion * heap :=
  match args with
  | [VNum n] =>
      let l := fresh (dom h) in
      (Normal (VRef l), <[l := plain [("length", VNum n)]]> h)
  | _ => (Abrupt (VStr "RangeError"), h)
  end.

Definition buffer2String (args : list value) (h : heap) : completion * heap :=
  match args with
  | VRef b :: _ => (Normal (VStr "c0ffee"), h)
  | _ => (Abrupt (VStr "TypeError"), h)
  end.

Definition string2Buffer (args : list value) (h : heap) : completion * heap :=
  match args with
  | [VStr _; n] =>
      let l := fresh (dom h) in
      (Normal (VRef l), <[l := plain [("length", n)]]> h)
  | _ => (Abrupt (VStr "TypeError"), h)
  end.

Definition native : native_fn := λ f k this args h,
  if String.eqb f "buildTypes" then buildTypes true args h
  else if String.eqb f "buildTypesLenient" then buildTypes false args h
  else if String.eqb f "TelegramClient" then TelegramClient args h
  else if String.eqb f "addKey" then addKey this args h
  else if String.eqb f "AuthKey" then AuthKey args h
  else if String.eqb f "decryptAuthKey" then AuthKey args h
  else if String.eqb f "createRandomBuffer" then createRandomBuffer args h
  else if String.eqb f "buffer2String" then buffer2String args h
  else if String.eqb f "string2Buffer" then string2Buffer args h
  else (Abrupt (VStr "not implemented"), h).

(** A heap with both layers, the client class and a schema description. *)
Definition world (builder : fid) : heap :=
  list_to_map
    [ (1%positive, plain [("security", VRef 3); ("auth", VRef 5); ("utility", VRef 7)]);
      (2%positive, plain [("TypeBuilder", VRef 9)]);
      (3%positive, plain [("PublicKey", VRef 4)]);
      (4%positive, plain [("addKey", VRef 11)]);
      (5%positive, plain [("AuthKey", VRef 6)]);
      (6%positive, func "AuthKey" [("decryptAuthKey", VRef 12)]);
      (7%positive, plain [("string2Buffer", VRef 13); ("buffer2String", VRef 14);
                          ("createRandomBuffer", VRef 15)]);
      (9%positive, plain [("buildTypes", VRef 10)]);
      (10%positive, func builder []);
      (11%positive, func "addKey" []);
      (12%positive, func "decryptAuthKey" []);
      (13%positive, func "string2Buffer" []);
      (14%positive, func "buffer2String" []);
      (15%positive, func "createRandomBuffer" []);
      (16%positive, func "TelegramClient" []);
      (20%positive, plain [("constructors", VRef 21); ("methods", VRef 22)]);
      (21%positive, plain [("foo.TypeFoo", VStr "foo.TypeFoo = foo.Type")]);
      (22%positive, plain [("foo.callFoo", VStr "foo.callFoo = foo.Type")]);
      (8%positive, plain []);
      (23%positive, plain [("constructors", VRef 8); ("methods", VUndefined)]);
      (24%positive, plain [("fingerprint", VStr "0xAB"); ("modulus", VStr "m");
                           ("exponent", VStr "010001")]) ].

Definition MTProto : value := VRef 1.
Definition TL : value := VRef 2.
Definition Client : value := VRef 16.

(** The heap after [new Telegram(MTProto, TL)] in [world], and the facade
    that construction made. *)
Definition ready (builder : fid) : heap :=
  final (Telegram.constructor MTProto TL (world builder)).
Definition facade : loc := 25%positive.

(** The heap after the facade imported the description at 20 with the
    default prefixes. *)
Definition imported (builder : fid) : heap :=
  final (Telegram.useSchema native (VRef facade) (VRef 20) VUndefined VUndefined
           (ready builder)).
End Double.


(** ** The public operations as one transition *)

Inductive op : Type :=
| UseSchema (schema typePrefix servicePrefix : value)
| CreateClient
| AddPublicKey (key : value)
| CreateAuthKey (authKeyId authKeyBody : value)
| DecryptKey (keyBuffer keyPassword : value)
| String2Buffer (string length : value)
| Buffer2String (buffer length : value)
| CreateRandomPassword (size : value).

Definition perform (native : native_fn) (TelegramClient this : value) (c : op) : M value :=
  match c with
  | UseSchema schema tp sp => Telegram.useSchema native this schema tp sp
  | CreateClient => Telegram.createClient native TelegramClient this
  | AddPublicKey key => Telegram.addPublicKey native this key
  | CreateAuthKey i b => Telegram.createAuthKey native this i b
  | DecryptKey b p => Telegram.decryptKey native this b p
  | String2Buffer s n => Telegram.string2Buffer native this s n
  | Buffer2String b n => Telegram.buffer2String native this b n
  | CreateRandomPassword n => Telegram.createRandomPassword native this n
  end.

Definition is_import (c : op) : bool :=
  match c with UseSchema _ _ _ => true | _ => false end.

(** The operations whose body is one call into a collaborator. *)
Definition is_delegation (c : op) : bool :=
  match c with
  | CreateClient | CreateAuthKey _ _ | DecryptKey _ _
  | String2Buffer _ _ | Buffer2String _ _ => true
  | UseSchema _ _ _ | AddPublicKey _ | CreateRandomPassword _ => false
  end.

(** A caller that performs operations one after the other on the same
    facade, going on after a failed one. *)
Fixpoint perform_all (native : native_fn) (TelegramClient this : value)
    (cs : list op) (h : heap) : heap * list event :=
  match cs with
  | [] => (h, [])
  | c :: cs' =>
      let o := perform native TelegramClient this c h in
      let r := perform_all native TelegramClient this cs' (final o) in
      (r.1, log o ++ r.2)
  end.

(** ** What is asked of the collaborators *)

(** The call [e] never writes to the object at [l]. *)
Definition leaves (native : native_fn) (l : loc) (e : event) : Prop :=
  ∀ h : heap, is_Some (h !! l) → after native e h !! l = h !! l.

(** The call [e] never changes the [_id] of a node that exists. *)
Definition keeps_ids (native : native_fn) (e : event) : Prop :=
  ∀ (h : heap) (l : loc), is_Some (h !! l) →
    field (after native e h) l "_id" = field h l "_id".

(** How a call ends, for its caller. *)
Definition ended (c : completion) : result value :=
  match c with Normal v => Ok v | Abrupt v => Raise (Foreign v) end.

(** [v.p1.p2...] *)
Fixpoint path (h : heap) (v : value) (ps : list string) : result value :=
  match ps with
  | [] => Ok v
  | p :: ps' =>
      match read h v p with
      | Ok w => path h w ps'
      | Raise e => Raise e
      end
  end.

(** The function installed at [v.p1.p2...]. *)
Definition method (h : heap) (v : value) (ps : list string) : option fid :=
  match path h v ps with Ok f => callable_at h f | Raise _ => None end.

(** A layer reference is absent, or it is an object. *)
Definition absent (v : value) : Prop := v = VUndefined ∨ v = VNull.
Definition layer_ref (v : value) : Prop := absent v ∨ ∃ l, v = VRef l.

(** A prefix argument: a string, or left out. *)
Definition prefix_arg (s : option string) : value :=
  match s with Some x => VStr x | None => VUndefined end.

(** * Properties *)

(** ** Running the monad *)

Lemma outcome_eta {A} (o : outcome A) : Out (res o) (final o) (log o) = o.
Proof. by destruct o. Qed.

Lemma bind_get {B} v p (f : value → M B) h :
  bind (get_prop v p) f h =
  match read h v p with Ok a => f a h | Raise e => Out (Raise e) h [] end.
Proof.
  unfold bind, get_prop; simpl. destruct (read h v p); [|done].
  apply outcome_eta.
Qed.

Lemma bind_alloc {B} o (f : value → M B) (h : gmap positive obj) :
  bind (alloc o) f h = f (VRef (fresh (dom h))) (<[fresh (dom h) := o]> h).
Proof. unfold bind, alloc; simpl. apply outcome_eta. Qed.

Lemma bind_set {B} l p x (f : unit → M B) (h : gmap positive obj) :
  bind (set_prop (VRef l) p x) f h =
  f tt (<[l := Obj (callable (default (Obj None ∅) (h !! l)))
                   (<[p := x]> (props (default (Obj None ∅) (h !! l))))]> h).
Proof. unfold bind, set_prop; simpl. apply outcome_eta. Qed.

Lemma bind_ret {A B} (a : A) (f : A → M B) h : bind (ret a) f h = f a h.
Proof. unfold bind, ret; simpl. apply outcome_eta. Qed.

Lemma bind_invoke {B} native k f this args (g : value → M B) h :
  bind (invoke native k f this args) g h =
  match callable_at h f with
  | Some n =>
      let e := Ev k n this args in
      match completes native e h with
      | Normal v =>
          let o := g v (after native e h) in Out (res o) (final o) (e :: log o)
      | Abrupt v => Out (Raise (Foreign v)) (after native e h) [e]
      end
  | None => Out (Raise TypeError) h []
  end.
Proof.
  unfold bind, invoke. destruct (callable_at h f); [|done]. simpl.
  by destruct (completes native _ h).
Qed.

Lemma invoke_run native k f this args h :
  invoke native k f this args h =
  match callable_at h f with
  | Some n =>
      let e := Ev k n this args in
      Out (ended (completes native e h)) (after native e h) [e]
  | None => Out (Raise TypeError) h []
  end.
Proof.
  unfold invoke. destruct (callable_at h f); [|done]. simpl.
  by destruct (completes native _ h).
Qed.

(** ** The heap across allocations and calls *)

Lemma fresh_unused (h : gmap positive obj) : h !! fresh (dom h) = None.
Proof. apply not_elem_of_dom, is_fresh. Qed.

Lemma fresh_ne (h : gmap positive obj) l : is_Some (h !! l) → l ≠ fresh (dom h).
Proof. intros [o Ho] ->. by rewrite fresh_unused in Ho. Qed.

Lemma after_lookup native e (h : gmap positive obj) l :
  after native e h !! l =
  union_with keep_code ((native (ev_fn e) (ev_kind e) (ev_this e) (ev_args e) h).2 !! l) (h !! l).
Proof. unfold after. apply lookup_union_with. Qed.

Lemma after_is_Some native e (h : gmap positive obj) l :
  is_Some (h !! l) → is_Some (after native e h !! l).
Proof.
  intros [o Ho]. rewrite after_lookup, Ho.
  destruct ((native _ _ _ _ _).2 !! l); simpl; eauto.
Qed.

Lemma after_callable native e (h : gmap positive obj) l :
  is_Some (h !! l) → after native e h !! l ≫= callable = h !! l ≫= callable.
Proof.
  intros [o Ho]. rewrite after_lookup, Ho.
  by destruct ((native _ _ _ _ _).2 !! l).
Qed.

Lemma callable_at_is_Some (h : gmap positive obj) v n :
  callable_at h v = Some n → ∃ l, v = VRef l ∧ is_Some (h !! l).
Proof.
  destruct v; simpl; try done. intros H. exists l. split; [done|].
  destruct (h !! l); [eauto | done].
Qed.

Lemma callable_at_after native e (h : gmap positive obj) v n :
  callable_at h v = Some n → callable_at (after native e h) v = Some n.
Proof.
  intros H. destruct (callable_at_is_Some _ _ _ H) as (l & -> & Hl).
  simpl in *. by rewrite after_callable.
Qed.

Lemma callable_at_alloc (h : gmap positive obj) v n o :
  callable_at h v = Some n → callable_at (<[fresh (dom h) := o]> h) v = Some n.
Proof.
  intros H. destruct (callable_at_is_Some _ _ _ H) as (l & -> & Hl).
  simpl in *. rewrite lookup_insert_ne; [done|]. intros E. by apply (fresh_ne h l).
Qed.

Lemma field_insert_ne (h : gmap positive obj) l l' o p :
  l ≠ l' → field (<[l := o]> h) l' p = field h l' p.
Proof. intros. unfold field. by rewrite lookup_insert_ne. Qed.

Lemma field_insert (h : gmap positive obj) l o p :
  field (<[l := o]> h) l p = default VUndefined (props o !! p).
Proof. unfold field. by rewrite lookup_insert_eq. Qed.

Lemma field_lookup (h h' : gmap positive obj) l p :
  h' !! l = h !! l → field h' l p = field h l p.
Proof. unfold field. by intros ->. Qed.

Lemma field_is_Some (h : gmap positive obj) l p :
  field h l p ≠ VUndefined → is_Some (h !! l).
Proof. unfold field. destruct (h !! l); [eauto | done]. Qed.

(** ** Construction *)

Lemma constructor_run (MTProto TL : value) (h : gmap positive obj) :
  Telegram.constructor MTProto TL h =
  let l := fresh (dom h) in
  if truthy MTProto && truthy TL
  then Out (Ok (VRef l)) (<[l := plain [("MTProto", MTProto); ("TL", TL)]]> h) []
  else Out (Raise (Error "You must invoke new Telegram(MTProto, TypeLanguage)"))
           (<[l := Obj None ∅]> h) [].
Proof.
  unfold Telegram.constructor. rewrite bind_alloc. simpl.
  destruct (truthy MTProto), (truthy TL); simpl; try done.
  rewrite !bind_set. unfold ret.
  rewrite !lookup_insert_eq. simpl. rewrite !insert_insert_eq.
  unfold plain. simpl.
  by rewrite (insert_insert_ne _ "TL" "MTProto").
Qed.

Lemma truthy_layer_ref v : layer_ref v → truthy v = false ↔ absent v.
Proof.
  unfold layer_ref, absent.
  intros [[-> | ->] | [l ->]]; simpl; split; auto; try done.
  by intros [|].
Qed.

(** C7: constructing the facade fails exactly when the MTProto reference or
    the TL reference is absent; with both present it succeeds, and the new
    object holds exactly the two references. *)
Theorem constructor_fails_iff_absent (MTProto TL : value) (h : gmap positive obj) :
  layer_ref MTProto → layer_ref TL →
  let o := Telegram.constructor MTProto TL h in
  ((∃ e, res o = Raise e) ↔ absent MTProto ∨ absent TL) ∧
  (¬ absent MTProto → ¬ absent TL →
   ∃ l, res o = Ok (VRef l) ∧ h !! l = None ∧ log o = [] ∧
        final o = <[l := plain [("MTProto", MTProto); ("TL", TL)]]> h).
Proof.
  intros HM HT. cbv zeta. rewrite constructor_run. cbv zeta.
  apply truthy_layer_ref in HM, HT.
  destruct (truthy MTProto) eqn:EM, (truthy TL) eqn:ET; simpl.
  - split.
    + split; [by intros [e He] |].
      intros [H | H]; [apply HM in H | apply HT in H]; done.
    + intros _ _. eexists. repeat split. apply fresh_unused.
  - assert (absent TL) as H by by apply HT.
    split; [split; eauto | by intros _ []].
  - assert (absent MTProto) as H by by apply HM.
    split; [split; eauto | by intros []].
  - assert (absent TL) as H by by apply HT.
    split; [split; eauto | by intros _ []].
Qed.

Lemma constructor_fails_iff_absent_witness :
  ∃ l, res (Telegram.constructor Double.MTProto Double.TL (Double.world "buildTypes"))
       = Ok (VRef l).
Proof.
  destruct (constructor_fails_iff_absent Double.MTProto Double.TL
              (Double.world "buildTypes")) as [_ H].
  - right. by exists 1%positive.
  - right. by exists 2%positive.
  - destruct H as (l & Hl & _).
    + by intros [|].
    + by intros [|].
    + by exists l.
Defined.


(** ** Importing a schema *)

Lemma useSchema_run native l schema tp sp (h : gmap positive obj) :
  Telegram.useSchema native (VRef l) schema tp sp h =
  match path h (VRef l) ["TL"; "TypeBuilder"; "buildTypes"] with
  | Raise e => Out (Raise e) h []
  | Ok bt =>
    let lt := fresh (dom h) in
    let h1 := <[lt := plain [("_id", default_arg tp (VStr "Telegram.type"))]]> h in
    match read h1 schema "constructors" with
    | Raise e => Out (Raise e) h1 []
    | Ok cs =>
      match callable_at h1 bt with
      | None => Out (Raise TypeError) h1 []
      | Some n1 =>
        let e1 := Ev Call n1 VUndefined [cs; VNull; VRef lt; VBool false] in
        let h2 := after native e1 h1 in
        match completes native e1 h1 with
        | Abrupt v => Out (Raise (Foreign v)) h2 [e1]
        | Normal _ =>
          let ls := fresh (dom h2) in
          let h3 := <[ls := plain [("_id", default_arg sp (VStr "Telegram.service"))]]> h2 in
          match read h3 schema "methods" with
          | Raise e => Out (Raise e) h3 [e1]
          | Ok ms =>
            match callable_at h3 bt with
            | None => Out (Raise TypeError) h3 [e1]
            | Some n2 =>
              let e2 := Ev Call n2 VUndefined [ms; VNull; VRef ls; VBool true] in
              let h4 := after native e2 h3 in
              match completes native e2 h3 with
              | Abrupt v => Out (Raise (Foreign v)) h4 [e1; e2]
              | Normal _ =>
                let li := fresh (dom h4) in
                let h5 := <[li := plain [("type", VRef lt); ("service", VRef ls)]]> h4 in
                let o := default (Obj None ∅) (h5 !! l) in
                Out (Ok VUndefined)
                    (<[l := Obj (callable o) (<["schema" := VRef li]> (props o))]> h5)
                    [e1; e2]
              end
            end
          end
        end
      end
    end
  end.
Proof.
  unfold Telegram.useSchema. simpl path.
  rewrite bind_get. change (read h (VRef l) "TL") with (Ok (field h l "TL")).
  cbv beta iota.
  rewrite bind_get. destruct (read h _ "TypeBuilder") as [TB|]; [|done].
  rewrite bind_get. destruct (read h TB "buildTypes") as [bt|]; [|done].
  rewrite bind_alloc, bind_get. cbv zeta.
  destruct (read _ schema "constructors") as [cs|]; [|done].
  rewrite bind_invoke. destruct (callable_at _ bt) as [n1|]; [|done].
  cbv zeta. destruct (completes native _ _); [|done].
  rewrite bind_alloc, bind_get.
  destruct (read _ schema "methods") as [ms|]; [|done].
  rewrite bind_invoke. destruct (callable_at _ bt) as [n2|]; [|done].
  cbv zeta. destruct (completes native _ _); [|done].
  rewrite bind_alloc, bind_set. by unfold ret.
Qed.

(** Objects that exist stay where they are while the class allocates and
    calls out. *)
Ltac alive :=
  repeat first
    [ assumption
    | apply after_is_Some
    | apply lookup_insert_is_Some'; right ].

Ltac untouched :=
  repeat first
    [ rewrite lookup_insert_ne by (first [ done | apply not_eq_sym, fresh_ne; alive ])
    | match goal with
      | H : leaves _ ?x _ |- context [after _ _ _ !! ?x] => rewrite H by alive
      end ];
  try done.

Lemma Forall_leaves_inv native x (es : list event) :
  Forall (leaves native x) es → ∀ e, e ∈ es → leaves native x e.
Proof. intros H e He. by eapply Forall_forall in H. Qed.

Lemma useSchema_frame native l schema tp sp (h : gmap positive obj) x :
  let o := Telegram.useSchema native (VRef l) schema tp sp h in
  is_Some (h !! x) →
  Forall (leaves native x) (log o) →
  x ≠ l ∨ (∃ e, res o = Raise e) →
  final o !! x = h !! x.
Proof.
  cbv zeta. rewrite useSchema_run. cbv zeta. intros Hx.
  repeat case_match; simpl; intros Hlog Hcase; try done.
  all: repeat match goal with
       | H : Forall _ (_ :: _) |- _ => apply Forall_cons in H as [? H]
       end.
  all: untouched.
  destruct Hcase as [Hne | [e He]]; [|done].
  untouched.
Qed.

Lemma path_this_alive (h : gmap positive obj) l p ps v :
  path h (VRef l) (p :: ps) = Ok v → ps ≠ [] → is_Some (h !! l).
Proof.
  simpl. intros H Hps. apply (field_is_Some h l p). intros E. rewrite E in H.
  destruct ps; [done|]. done.
Qed.

(** C1: an import that completes leaves a schema whose type root and service
    root carry the prefixes it was given as [_id], and "Telegram.type" and
    "Telegram.service" where a prefix was left out, provided the Type Builder
    calls keep the [_id] of existing nodes. *)
Theorem useSchema_root_ids native l schema (typePrefix servicePrefix : option string)
    (h : gmap positive obj) :
  let o := Telegram.useSchema native (VRef l) schema
             (prefix_arg typePrefix) (prefix_arg servicePrefix) h in
  (∃ r, res o = Ok r) →
  Forall (keeps_ids native) (log o) →
  ∃ li lt ls,
    field (final o) l "schema" = VRef li ∧
    field (final o) li "type" = VRef lt ∧
    field (final o) li "service" = VRef ls ∧
    field (final o) lt "_id" = VStr (default "Telegram.type" typePrefix) ∧
    field (final o) ls "_id" = VStr (default "Telegram.service" servicePrefix).
Proof.
  cbv zeta. rewrite useSchema_run. cbv zeta.
  destruct (path h (VRef l) _) as [bt|] eqn:Hbt; [|by intros [r Hr]].
  assert (Hl : is_Some (h !! l)) by (by eapply path_this_alive).
  repeat case_match; simpl; intros [r Hr] Hlog; try done.
  apply Forall_cons in Hlog as [K1 Hlog]. apply Forall_cons in Hlog as [K2 _].
  set (lt := fresh (dom h)) in *.
  set (h1 := <[lt := _]> h) in *.
  set (h2 := after native _ h1) in *.
  set (ls := fresh (dom h2)) in *.
  set (h3 := <[ls := _]> h2) in *.
  set (h4 := after native _ h3) in *.
  set (li := fresh (dom h4)) in *.
  set (h5 := <[li := _]> h4) in *.
  assert (A1 : is_Some (h1 !! l)) by (subst h1; alive).
  assert (B1 : is_Some (h1 !! lt)) by (subst h1; rewrite lookup_insert_eq; eauto).
  assert (A2 : is_Some (h2 !! l)) by (subst h2; alive).
  assert (B2 : is_Some (h2 !! lt)) by (subst h2; alive).
  assert (A3 : is_Some (h3 !! l)) by (subst h3; alive).
  assert (B3 : is_Some (h3 !! lt)) by (subst h3; alive).
  assert (C3 : is_Some (h3 !! ls)) by (subst h3; rewrite lookup_insert_eq; eauto).
  assert (A4 : is_Some (h4 !! l)) by (subst h4; alive).
  assert (B4 : is_Some (h4 !! lt)) by (subst h4; alive).
  assert (C4 : is_Some (h4 !! ls)) by (subst h4; alive).
  assert (lt ≠ l) by (apply not_eq_sym, fresh_ne, Hl).
  assert (ls ≠ l) by (apply not_eq_sym, fresh_ne, A2).
  assert (ls ≠ lt) by (apply not_eq_sym, fresh_ne, B2).
  assert (li ≠ l) by (apply not_eq_sym, fresh_ne, A4).
  assert (li ≠ lt) by (apply not_eq_sym, fresh_ne, B4).
  assert (li ≠ ls) by (apply not_eq_sym, fresh_ne, C4).
  exists li, lt, ls. repeat split.
  - rewrite field_insert. simpl. by rewrite lookup_insert_eq.
  - rewrite field_insert_ne by done. subst h5. rewrite field_insert.
    unfold plain; simpl. by rewrite lookup_insert_eq.
  - rewrite field_insert_ne by done. subst h5. rewrite field_insert.
    unfold plain; simpl. rewrite lookup_insert_ne by done. by rewrite lookup_insert_eq.
  - rewrite field_insert_ne by done. subst h5. rewrite field_insert_ne by done.
    subst h4. rewrite K2 by done. subst h3. rewrite field_insert_ne by done.
    subst h2. rewrite K1 by done. subst h1. rewrite field_insert.
    unfold plain; simpl. rewrite lookup_insert_eq. by destruct typePrefix.
  - rewrite field_insert_ne by done. subst h5. rewrite field_insert_ne by done.
    subst h4. rewrite K2 by done. subst h3. rewrite field_insert.
    unfold plain; simpl. rewrite lookup_insert_eq. by destruct servicePrefix.
Qed.

Lemma method_inv (h : gmap positive obj) v ps n :
  method h v ps = Some n → ∃ f, path h v ps = Ok f ∧ callable_at h f = Some n.
Proof. unfold method. destruct (path h v ps); [eauto | done]. Qed.

(** With a Type Builder installed and an object as description, the two
    calls and nothing else decide how an import ends. *)
Lemma useSchema_installed native l d tp sp (h : gmap positive obj) bt :
  method h (VRef l) ["TL"; "TypeBuilder"; "buildTypes"] = Some bt →
  is_Some (h !! d) →
  Telegram.useSchema native (VRef l) (VRef d) tp sp h =
  let lt := fresh (dom h) in
  let h1 := <[lt := plain [("_id", default_arg tp (VStr "Telegram.type"))]]> h in
  let e1 := Ev Call bt VUndefined [field h d "constructors"; VNull; VRef lt; VBool false] in
  let h2 := after native e1 h1 in
  match completes native e1 h1 with
  | Abrupt v => Out (Raise (Foreign v)) h2 [e1]
  | Normal _ =>
    let ls := fresh (dom h2) in
    let h3 := <[ls := plain [("_id", default_arg sp (VStr "Telegram.service"))]]> h2 in
    let e2 := Ev Call bt VUndefined [field h2 d "methods"; VNull; VRef ls; VBool true] in
    let h4 := after native e2 h3 in
    match completes native e2 h3 with
    | Abrupt v => Out (Raise (Foreign v)) h4 [e1; e2]
    | Normal _ =>
      let li := fresh (dom h4) in
      let h5 := <[li := plain [("type", VRef lt); ("service", VRef ls)]]> h4 in
      let o := default (Obj None ∅) (h5 !! l) in
      Out (Ok VUndefined)
          (<[l := Obj (callable o) (<["schema" := VRef li]> (props o))]> h5)
          [e1; e2]
    end
  end.
Proof.
  intros (f & Hf & Hbt)%method_inv Hd. rewrite useSchema_run, Hf. cbv zeta.
  simpl read. rewrite field_insert_ne by (apply not_eq_sym, fresh_ne, Hd).
  rewrite (callable_at_alloc _ _ _ _ Hbt).
  destruct (completes native _ _); [|done].
  rewrite field_insert_ne by (apply not_eq_sym, fresh_ne; alive).
  erewrite callable_at_alloc; [done|].
  by apply callable_at_after, callable_at_alloc.
Qed.

(** C6: an import calls the Type Builder twice, first on the constructors
    with the type root and [false], then on the methods with the service root
    and [true]; the pair of roots then becomes the stored schema, as a new
    object that holds the two roots and nothing of an earlier import. *)
Theorem useSchema_builds_twice native l d tp sp (h : gmap positive obj) bt v1 :
  method h (VRef l) ["TL"; "TypeBuilder"; "buildTypes"] = Some bt →
  is_Some (h !! d) →
  let lt := fresh (dom h) in
  let h1 := <[lt := plain [("_id", default_arg tp (VStr "Telegram.type"))]]> h in
  let e1 := Ev Call bt VUndefined [field h d "constructors"; VNull; VRef lt; VBool false] in
  let h2 := after native e1 h1 in
  let ls := fresh (dom h2) in
  let h3 := <[ls := plain [("_id", default_arg sp (VStr "Telegram.service"))]]> h2 in
  let e2 := Ev Call bt VUndefined [field h2 d "methods"; VNull; VRef ls; VBool true] in
  let h4 := after native e2 h3 in
  let o := Telegram.useSchema native (VRef l) (VRef d) tp sp h in
  completes native e1 h1 = Normal v1 →
  log o = [e1; e2] ∧
  res o = match completes native e2 h3 with
          | Normal _ => Ok VUndefined
          | Abrupt v => Raise (Foreign v)
          end ∧
  (res o = Ok VUndefined →
   ∃ li, h4 !! li = None ∧
         field (final o) l "schema" = VRef li ∧
         final o !! li = Some (plain [("type", VRef lt); ("service", VRef ls)]) ∧
         (∀ p, p ≠ "schema" → field (final o) l p = field h4 l p) ∧
         (∀ x, x ≠ l → x ≠ li → final o !! x = h4 !! x)).
Proof.
  intros Hbt Hd. cbv zeta. intros H1.
  assert (Hl : is_Some (h !! l)).
  { apply method_inv in Hbt as (f & Hf & _). by eapply path_this_alive. }
  rewrite (useSchema_installed _ _ _ _ _ _ _ Hbt Hd). cbv zeta. rewrite H1.
  match goal with
  | |- context [match completes native ?e ?hh with _ => _ end] =>
      destruct (completes native e hh) as [v2|v2] eqn:H2
  end; simpl; [|by repeat split].
  split; [done|]. split; [done|]. intros _.
  set (h4 := after native _ _).
  assert (A4 : is_Some (h4 !! l)) by (subst h4; alive).
  assert (fresh (dom h4) ≠ l) by (apply not_eq_sym, fresh_ne, A4).
  exists (fresh (dom h4)). repeat split.
  - apply fresh_unused.
  - rewrite field_insert. simpl. by rewrite lookup_insert_eq.
  - rewrite lookup_insert_ne by done. by rewrite lookup_insert_eq.
  - intros p Hp. rewrite field_insert. simpl.
    rewrite lookup_insert_ne by done. rewrite lookup_insert_ne by done.
    unfold field. by destruct (h4 !! l).
  - intros x Hx Hxi. rewrite lookup_insert_ne by done. by rewrite lookup_insert_ne.
Qed.

Lemma useSchema_ok_inv native l schema tp sp (h : gmap positive obj) r :
  let o := Telegram.useSchema native (VRef l) schema tp sp h in
  res o = Ok r →
  r = VUndefined ∧ length (log o) = 2 ∧
  ∃ li, field (final o) l "schema" = VRef li ∧ h !! li = None.
Proof.
  cbv zeta. rewrite useSchema_run. cbv zeta.
  repeat case_match; simpl; intros Hr; try done.
  split; [congruence|]. split; [done|].
  eexists. split.
  - rewrite field_insert. simpl. by rewrite lookup_insert_eq.
  - match goal with
    | |- h !! fresh (dom ?h4) = None =>
        destruct (h !! fresh (dom h4)) eqn:E; [|done];
        assert (is_Some (h4 !! fresh (dom h4))) as [? Hc] by (alive; by rewrite E);
        by rewrite fresh_unused in Hc
    end.
Qed.

(** C4: an import that fails leaves the facade object, and with it the stored
    schema, as it was before the call, whether or not a schema was stored; the
    stored schema changes only in an import that made both calls and
    completed.  The Type Builder calls are taken not to write to the facade. *)
Theorem useSchema_atomic native l schema tp sp (h : gmap positive obj) :
  let o := Telegram.useSchema native (VRef l) schema tp sp h in
  Forall (leaves native l) (log o) →
  (∀ e, res o = Raise e →
     final o !! l = h !! l ∧ field (final o) l "schema" = field h l "schema") ∧
  (field (final o) l "schema" ≠ field h l "schema" →
     res o = Ok VUndefined ∧ length (log o) = 2).
Proof.
  cbv zeta. intros Hlog.
  assert (Hfail : ∀ e, res (Telegram.useSchema native (VRef l) schema tp sp h) = Raise e →
                       final (Telegram.useSchema native (VRef l) schema tp sp h) !! l = h !! l).
  { intros e He. destruct (h !! l) as [o|] eqn:Hl.
    - rewrite <- Hl. apply useSchema_frame; [by rewrite Hl | done | eauto].
    - rewrite useSchema_run. simpl path. unfold field at 1. rewrite Hl. simpl.
      by rewrite Hl. }
  split.
  - intros e He. split; [by eapply Hfail|]. apply field_lookup. by eapply Hfail.
  - intros Hne. destruct (res _) as [r|e] eqn:Hr.
    + apply useSchema_ok_inv in Hr as (-> & Hlen & _). done.
    + destruct Hne. apply field_lookup. by eapply Hfail.
Qed.

(** C2, as the class has it: the class does not look for the constructors or
    the methods of the description.  With a Type Builder installed and an
    object as description, an import fails only with what a Type Builder call
    threw; a mapping that is missing is handed to the Type Builder as
    [undefined]. *)
Theorem useSchema_missing_mapping native l d tp sp (h : gmap positive obj) bt :
  method h (VRef l) ["TL"; "TypeBuilder"; "buildTypes"] = Some bt →
  is_Some (h !! d) →
  let o := Telegram.useSchema native (VRef l) (VRef d) tp sp h in
  (∀ e, res o = Raise e →
     ∃ v ev hh, e = Foreign v ∧ ev ∈ log o ∧ completes native ev hh = Abrupt v) ∧
  (field h d "constructors" = VUndefined →
     ∃ e1 es, log o = e1 :: es ∧ ev_args e1 !! 0%nat = Some VUndefined) ∧
  (field h d "methods" = VUndefined →
     ∀ e1 e2, log o = [e1; e2] → leaves native d e1 →
       ev_args e2 !! 0%nat = Some VUndefined).
Proof.
  intros Hbt Hd. cbv zeta.
  rewrite (useSchema_installed _ _ _ _ _ _ _ Hbt Hd). cbv zeta.
  destruct (completes native _ _) as [v1|v1] eqn:H1.
  - match goal with
    | |- context [match completes native ?e ?hh with _ => _ end] =>
        destruct (completes native e hh) as [v2|v2] eqn:H2
    end; simpl.
    + split; [done|]. split.
      * intros ->. by eexists _, _.
      * intros Hm e1 e2 [= <- <-] He1. simpl. f_equal.
        etrans; [|exact Hm].
        etrans; [apply field_lookup, He1; alive|].
        apply field_insert_ne, not_eq_sym, fresh_ne, Hd.
    + split; [|split].
      * intros e [= <-]. eexists _, _, _. split; [done|]. split; [|exact H2].
        set_solver.
      * intros ->. by eexists _, _.
      * intros Hm e1 e2 [= <- <-] He1. simpl. f_equal.
        etrans; [|exact Hm].
        etrans; [apply field_lookup, He1; alive|].
        apply field_insert_ne, not_eq_sym, fresh_ne, Hd.
  - simpl. split; [|split].
    + intros e [= <-]. eexists _, _, _. split; [done|]. split; [|exact H1].
      set_solver.
    + intros ->. by eexists _, _.
    + intros _ e1 e2 [=].
Qed.

(** ** Creating a client *)

Lemma createClient_run native TC l (h : gmap positive obj) :
  Telegram.createClient native TC (VRef l) h =
  invoke native Construct TC VUndefined
    [field h l "schema"; field h l "MTProto"; field h l "TL"] h.
Proof. unfold Telegram.createClient. by repeat (rewrite bind_get; cbn [read]). Qed.

(** C3, as the class has it: on a facade that was just constructed
    [createClient] checks nothing; it constructs the client class on
    [undefined] as schema and the two layers, and ends as that construction
    ends. *)
Theorem createClient_before_import native TC MTProto TL (h : gmap positive obj) n l :
  let o0 := Telegram.constructor MTProto TL h in
  res o0 = Ok (VRef l) →
  callable_at h TC = Some n →
  let o := Telegram.createClient native TC (VRef l) (final o0) in
  let e := Ev Construct n VUndefined [VUndefined; MTProto; TL] in
  log o = [e] ∧
  res o = ended (completes native e (final o0)) ∧
  final o = after native e (final o0).
Proof.
  cbv zeta. rewrite constructor_run. cbv zeta.
  destruct (truthy MTProto && truthy TL); cbn [res final log]; [|done].
  intros [= <-] Hn. rewrite createClient_run, invoke_run.
  rewrite (callable_at_alloc _ _ _ _ Hn). cbv zeta.
  rewrite !field_insert. unfold plain. simpl.
  rewrite lookup_insert_ne by done. rewrite lookup_insert_ne by done.
  rewrite lookup_empty, lookup_insert_eq.
  rewrite lookup_insert_ne by done. rewrite lookup_insert_eq. done.
Qed.

(** C5: a client is constructed on the schema the facade stores at that
    moment.  A later import writes to no object that existed before it, the
    facade apart: the client and the schema object it was given stay as they
    were wherever the Type Builder calls do not write to them, and the schema
    stored afterwards is an object that did not exist before. *)
Theorem reimport_keeps_client_schema native TC l schema tp sp (h : gmap positive obj) c :
  let o1 := Telegram.createClient native TC (VRef l) h in
  let o2 := Telegram.useSchema native (VRef l) schema tp sp (final o1) in
  res o1 = Ok c →
  (∃ n, log o1 = [Ev Construct n VUndefined
                    [field h l "schema"; field h l "MTProto"; field h l "TL"]]) ∧
  (∀ x, x ≠ l → is_Some (final o1 !! x) → Forall (leaves native x) (log o2) →
        final o2 !! x = final o1 !! x) ∧
  (∀ r, res o2 = Ok r →
        ∃ li, field (final o2) l "schema" = VRef li ∧ final o1 !! li = None).
Proof.
  cbv zeta. intros Hc. split; [|split].
  - revert Hc. rewrite createClient_run, invoke_run.
    destruct (callable_at h TC) as [n|]; [|done]. simpl. eauto.
  - intros x Hx Hal Hlog. apply useSchema_frame; auto.
  - intros r Hr. apply useSchema_ok_inv in Hr as (_ & _ & li & Hli & Hnone).
    by exists li.
Qed.

(** ** The one-call operations *)

Lemma createAuthKey_run native l i b (h : gmap positive obj) :
  Telegram.createAuthKey native (VRef l) i b h =
  match path h (VRef l) ["MTProto"; "auth"; "AuthKey"] with
  | Ok AuthKey => invoke native Construct AuthKey VUndefined [i; b] h
  | Raise e => Out (Raise e) h []
  end.
Proof.
  unfold Telegram.createAuthKey. cbn [path read].
  rewrite bind_get. cbn [read].
  rewrite bind_get. destruct (read h _ "auth") as [a|]; [|done].
  rewrite bind_get. by destruct (read h a "AuthKey").
Qed.

Lemma decryptKey_run native l kb kp (h : gmap positive obj) :
  Telegram.decryptKey native (VRef l) kb kp h =
  match path h (VRef l) ["MTProto"; "auth"; "AuthKey"] with
  | Ok AuthKey =>
      match read h AuthKey "decryptAuthKey" with
      | Ok f => invoke native Call f AuthKey [kb; kp] h
      | Raise e => Out (Raise e) h []
      end
  | Raise e => Out (Raise e) h []
  end.
Proof.
  unfold Telegram.decryptKey. cbn [path read].
  rewrite bind_get. cbn [read].
  rewrite bind_get. destruct (read h _ "auth") as [a|]; [|done].
  rewrite bind_get. destruct (read h a "AuthKey") as [k|]; [|done].
  rewrite bind_get. by destruct (read h k "decryptAuthKey").
Qed.

Lemma string2Buffer_run native l s n (h : gmap positive obj) :
  Telegram.string2Buffer native (VRef l) s n h =
  match path h (VRef l) ["MTProto"; "utility"] with
  | Ok utility =>
      match read h utility "string2Buffer" with
      | Ok f => invoke native Call f utility [s; n] h
      | Raise e => Out (Raise e) h []
      end
  | Raise e => Out (Raise e) h []
  end.
Proof.
  unfold Telegram.string2Buffer. cbn [path read].
  rewrite bind_get. cbn [read].
  rewrite bind_get. destruct (read h _ "utility") as [u|]; [|done].
  rewrite bind_get. by destruct (read h u "string2Buffer").
Qed.

Lemma buffer2String_run native l b n (h : gmap positive obj) :
  Telegram.buffer2String native (VRef l) b n h =
  match path h (VRef l) ["MTProto"; "utility"] with
  | Ok utility =>
      match read h utility "buffer2String" with
      | Ok f => invoke native Call f utility [b; n] h
      | Raise e => Out (Raise e) h []
      end
  | Raise e => Out (Raise e) h []
  end.
Proof.
  unfold Telegram.buffer2String. cbn [path read].
  rewrite bind_get. cbn [read].
  rewrite bind_get. destruct (read h _ "utility") as [u|]; [|done].
  rewrite bind_get. by destruct (read h u "buffer2String").
Qed.

(** ** Registering a public key *)

Lemma addPublicKey_run native l key (h : gmap positive obj) :
  Telegram.addPublicKey native (VRef l) key h =
  match read h key "fingerprint", read h key "modulus", read h key "exponent" with
  | Ok fingerprint, Ok modulus, Ok exponent =>
    match path h (VRef l) ["MTProto"; "security"; "PublicKey"] with
    | Raise e => Out (Raise e) h []
    | Ok PublicKey =>
      match read h PublicKey "addKey" with
      | Raise e => Out (Raise e) h []
      | Ok addKey =>
        let la := fresh (dom h) in
        let h1 := <[la := plain [("fingerprint", fingerprint); ("modulus", modulus);
                                 ("exponent", exponent)]]> h in
        match callable_at h1 addKey with
        | None => Out (Raise TypeError) h1 []
        | Some n =>
          let e := Ev Call n PublicKey [VRef la] in
          Out (match completes native e h1 with
               | Normal _ => Ok VUndefined
               | Abrupt v => Raise (Foreign v)
               end) (after native e h1) [e]
        end
      end
    end
  | Raise e, _, _ | _, Raise e, _ | _, _, Raise e => Out (Raise e) h []
  end.
Proof.
  unfold Telegram.addPublicKey. cbn [path read].
  rewrite bind_get. destruct (read h key "fingerprint") as [fp|]; [|done].
  rewrite bind_get. destruct (read h key "modulus") as [md|]; [|done].
  rewrite bind_get. destruct (read h key "exponent") as [ex|]; [|done].
  rewrite bind_get. cbn [read].
  rewrite bind_get. destruct (read h _ "security") as [sec|]; [|done].
  rewrite bind_get. destruct (read h sec "PublicKey") as [pk|]; [|done].
  rewrite bind_get. destruct (read h pk "addKey") as [ak|]; [|done].
  rewrite bind_alloc, bind_invoke.
  destruct (callable_at _ ak); [|done]. cbv zeta.
  by destruct (completes native _ _).
Qed.

(** ** A random password *)

Lemma createRandomPassword_run native l size (h : gmap positive obj) :
  Telegram.createRandomPassword native (VRef l) size h =
  match path h (VRef l) ["MTProto"; "utility"] with
  | Raise e => Out (Raise e) h []
  | Ok util =>
    match read h util "createRandomBuffer" with
    | Raise e => Out (Raise e) h []
    | Ok f1 =>
      match callable_at h f1 with
      | None => Out (Raise TypeError) h []
      | Some n1 =>
        let e1 := Ev Call n1 util [default_arg size (VNum 128)] in
        let h1 := after native e1 h in
        match completes native e1 h with
        | Abrupt v => Out (Raise (Foreign v)) h1 [e1]
        | Normal buffer =>
          match read h1 util "buffer2String" with
          | Raise e => Out (Raise e) h1 [e1]
          | Ok f2 =>
            match callable_at h1 f2 with
            | None => Out (Raise TypeError) h1 [e1]
            | Some n2 =>
              let e2 := Ev Call n2 util [buffer] in
              Out (ended (completes native e2 h1)) (after native e2 h1) [e1; e2]
            end
          end
        end
      end
    end
  end.
Proof.
  unfold Telegram.createRandomPassword. cbn [path read].
  rewrite bind_get. cbn [read].
  rewrite bind_get. destruct (read h _ "utility") as [u|]; [|done].
  rewrite bind_get. destruct (read h u "createRandomBuffer") as [f1|]; [|done].
  rewrite bind_invoke. destruct (callable_at h f1) as [n1|]; [|done]. cbv zeta.
  destruct (completes native _ h) as [buffer|]; [|done].
  rewrite bind_get. destruct (read _ u "buffer2String") as [f2|]; [|done].
  rewrite invoke_run. by destruct (callable_at _ f2).
Qed.

(** ** What the class leaves alone *)

Lemma perform_frame native TC l c (h : gmap positive obj) x :
  let o := perform native TC (VRef l) c h in
  is_Some (h !! x) →
  Forall (leaves native x) (log o) →
  x ≠ l ∨ is_import c = false ∨ (∃ e, res o = Raise e) →
  final o !! x = h !! x.
Proof.
  cbv zeta. intros Hx. destruct c; cbn [perform is_import].
  - intros Hlog [H | [H | H]]; [|done|]; apply useSchema_frame; auto.
  - rewrite createClient_run, invoke_run.
    repeat case_match; simpl; intros Hlog _; try done.
    apply Forall_cons in Hlog as [? _]. untouched.
  - rewrite addPublicKey_run. cbv zeta.
    repeat case_match; simpl; intros Hlog _; try done.
    all: try (apply Forall_cons in Hlog as [? _]).
    all: untouched.
  - rewrite createAuthKey_run. repeat case_match; try done.
    rewrite invoke_run. repeat case_match; simpl; intros Hlog _; try done.
    apply Forall_cons in Hlog as [? _]. untouched.
  - rewrite decryptKey_run. repeat case_match; try done.
    rewrite invoke_run. repeat case_match; simpl; intros Hlog _; try done.
    apply Forall_cons in Hlog as [? _]. untouched.
  - rewrite string2Buffer_run. repeat case_match; try done.
    rewrite invoke_run. repeat case_match; simpl; intros Hlog _; try done.
    apply Forall_cons in Hlog as [? _]. untouched.
  - rewrite buffer2String_run. repeat case_match; try done.
    rewrite invoke_run. repeat case_match; simpl; intros Hlog _; try done.
    apply Forall_cons in Hlog as [? _]. untouched.
  - rewrite createRandomPassword_run. cbv zeta.
    repeat case_match; simpl; intros Hlog _; try done.
    all: repeat match goal with
         | H : Forall _ (_ :: _) |- _ => apply Forall_cons in H as [? H]
         end.
    all: untouched.
Qed.

Lemma perform_fields native TC l c (h : gmap positive obj) p :
  let o := perform native TC (VRef l) c h in
  is_Some (h !! l) →
  Forall (leaves native l) (log o) →
  p ≠ "schema" →
  field (final o) l p = field h l p.
Proof.
  cbv zeta. intros Hl Hlog Hp.
  destruct (is_import c) eqn:Hc.
  - destruct c; try done. cbn [perform] in *.
    destruct (res (Telegram.useSchema native (VRef l) schema typePrefix servicePrefix h))
      as [r|e] eqn:Hr.
    + revert Hr Hlog. rewrite useSchema_run. cbv zeta.
      repeat case_match; simpl; intros Hr Hlog; try done.
      apply Forall_cons in Hlog as [K1 Hlog]. apply Forall_cons in Hlog as [K2 _].
      rewrite field_insert. simpl. rewrite lookup_insert_ne by done.
      match goal with
      | |- context [default (Obj None ∅) (?hh !! l)] =>
          assert (E : hh !! l = h !! l) by untouched
      end.
      rewrite E. destruct Hl as [o Ho]. rewrite Ho. simpl.
      unfold field. by rewrite Ho.
    + apply field_lookup, useSchema_frame; eauto.
  - apply field_lookup, perform_frame; auto.
Qed.

Lemma perform_alive native TC l c (h : gmap positive obj) x :
  is_Some (h !! x) → is_Some (final (perform native TC (VRef l) c h) !! x).
Proof.
  intros Hx. destruct c; cbn [perform].
  - rewrite useSchema_run. cbv zeta. repeat case_match; simpl; alive.
  - rewrite createClient_run, invoke_run. repeat case_match; simpl; alive.
  - rewrite addPublicKey_run. cbv zeta. repeat case_match; simpl; alive.
  - rewrite createAuthKey_run. repeat case_match; try done.
    rewrite invoke_run. repeat case_match; simpl; alive.
  - rewrite decryptKey_run. repeat case_match; try done.
    rewrite invoke_run. repeat case_match; simpl; alive.
  - rewrite string2Buffer_run. repeat case_match; try done.
    rewrite invoke_run. repeat case_match; simpl; alive.
  - rewrite buffer2String_run. repeat case_match; try done.
    rewrite invoke_run. repeat case_match; simpl; alive.
  - rewrite createRandomPassword_run. cbv zeta. repeat case_match; simpl; alive.
Qed.

(** C8: with a key store installed, [addPublicKey] makes one call, of the key
    store's [addKey] on the key store, with one new object that holds the
    descriptor's fingerprint, modulus and exponent as they are read from it;
    it checks none of them, returns nothing, and fails only as the call does. *)
Theorem addPublicKey_one_call native l kd (h : gmap positive obj) PublicKey n :
  path h (VRef l) ["MTProto"; "security"; "PublicKey"] = Ok PublicKey →
  method h PublicKey ["addKey"] = Some n →
  let la := fresh (dom h) in
  let h1 := <[la := plain [("fingerprint", field h kd "fingerprint");
                           ("modulus", field h kd "modulus");
                           ("exponent", field h kd "exponent")]]> h in
  let e := Ev Call n PublicKey [VRef la] in
  let o := Telegram.addPublicKey native (VRef l) (VRef kd) h in
  log o = [e] ∧
  res o = match completes native e h1 with
          | Normal _ => Ok VUndefined
          | Abrupt v => Raise (Foreign v)
          end ∧
  final o = after native e h1.
Proof.
  intros Hpk (f & Hf & Hn)%method_inv. cbv zeta.
  rewrite addPublicKey_run, Hpk. cbn [read].
  cbn [path] in Hf. destruct (read h PublicKey "addKey") as [f'|]; [|done].
  injection Hf as ->. cbv zeta.
  by rewrite (callable_at_alloc _ _ _ _ Hn).
Qed.

(** C9: with the utilities installed, [createRandomPassword] calls
    [createRandomBuffer] with the size, 128 when it is left out, and then
    [buffer2String] with the buffer that call returned and nothing else; it
    ends as the second call ends. *)
Theorem createRandomPassword_composes native l size (h : gmap positive obj)
    util n1 buffer n2 :
  path h (VRef l) ["MTProto"; "utility"] = Ok util →
  method h util ["createRandomBuffer"] = Some n1 →
  let e1 := Ev Call n1 util [default_arg size (VNum 128)] in
  let h1 := after native e1 h in
  completes native e1 h = Normal buffer →
  method h1 util ["buffer2String"] = Some n2 →
  let e2 := Ev Call n2 util [buffer] in
  let o := Telegram.createRandomPassword native (VRef l) size h in
  log o = [e1; e2] ∧
  res o = ended (completes native e2 h1) ∧
  final o = after native e2 h1.
Proof.
  intros Hu (f1 & Hf1 & Hn1)%method_inv. cbv zeta.
  intros Hb (f2 & Hf2 & Hn2)%method_inv.
  rewrite createRandomPassword_run, Hu. cbv zeta.
  cbn [path] in Hf1, Hf2.
  destruct (read h util "createRandomBuffer") as [f1'|]; [|done].
  injection Hf1 as ->. rewrite Hn1, Hb.
  destruct (read _ util "buffer2String") as [f2'|]; [|done].
  injection Hf2 as ->. by rewrite Hn2.
Qed.

(** C10: on a facade that exists, no operation other than an import changes
    the facade object, and an import changes no field of it but [schema]; so
    [MTProto] and [TL] stay what the constructor stored.  The calls made are
    taken not to write to the facade themselves. *)
Theorem facade_fields_frame native TC l c (h : gmap positive obj) :
  let o := perform native TC (VRef l) c h in
  is_Some (h !! l) →
  Forall (leaves native l) (log o) →
  (is_import c = false → final o !! l = h !! l) ∧
  (∀ p, p ≠ "schema" → field (final o) l p = field h l p).
Proof.
  cbv zeta. intros Hl Hlog. split.
  - intros Hc. apply perform_frame; auto.
  - intros p Hp. by apply perform_fields.
Qed.

(** ** The stand-ins keep the contracts *)

Lemma double_final_lookup f k this args (h : gmap positive obj) l o :
  h !! l = Some o →
  ∃ o', (Double.native f k this args h).2 !! l = Some o' ∧
        props o' !! "_id" = props o !! "_id" ∧
        (this ≠ VRef l → args !! 2%nat ≠ Some (VRef l) → o' = o).
Proof.
  intros Hl.
  assert (Hfresh : l ≠ fresh (dom h)) by (apply fresh_ne; eauto).
  unfold Double.native, Double.buildTypes, Double.TelegramClient, Double.addKey,
    Double.AuthKey, Double.createRandomBuffer, Double.buffer2String,
    Double.string2Buffer.
  repeat case_match; cbn [snd];
    try (exists o; by rewrite ?lookup_insert_ne by done).
  all: match goal with
       | |- context [<[?x := _]> _ !! ?y] =>
           destruct (decide (x = y)) as [->|Hne];
           [rewrite lookup_insert_eq | exists o; by rewrite lookup_insert_ne]
       end.
  all: eexists; (split; [done|]).
  all: rewrite ?Hl in *; simplify_eq; cbn [props default]; split;
    [| intros Ht Ha; by first [destruct Ht | destruct Ha]].
  - rewrite lookup_union, lookup_delete_eq. by destruct (props _ !! "_id").
  - rewrite lookup_union, lookup_delete_eq. by destruct (props _ !! "_id").
  - by rewrite lookup_insert_ne.
Qed.

Lemma double_leaves l e :
  ev_this e ≠ VRef l → ev_args e !! 2%nat ≠ Some (VRef l) → leaves Double.native l e.
Proof.
  intros Ht Ha h [o Ho]. rewrite after_lookup, Ho.
  destruct (double_final_lookup (ev_fn e) (ev_kind e) (ev_this e) (ev_args e) h l o Ho)
    as (o' & -> & _ & Heq).
  rewrite Heq by done. by destruct o.
Qed.

Lemma double_keeps_ids e : keeps_ids Double.native e.
Proof.
  intros h l [o Ho]. unfold field. rewrite after_lookup, Ho.
  destruct (double_final_lookup (ev_fn e) (ev_kind e) (ev_this e) (ev_args e) h l o Ho)
    as (o' & -> & Hid & _).
  simpl. by rewrite Hid.
Qed.

(** ** Runs against the stand-ins *)

Ltac run_log :=
  match goal with
  | |- Forall _ ?lg =>
      let v := eval vm_compute in lg in
      replace lg with v by (vm_compute; reflexivity)
  end.

Ltac double_leaves_all :=
  run_log; repeat first [ apply Forall_nil_2 | apply Forall_cons_2 ];
  apply double_leaves; vm_compute; congruence.

Lemma useSchema_root_ids_witness :
  let o := Telegram.useSchema Double.native (VRef Double.facade) (VRef 20)
             (prefix_arg (Some "types")) (prefix_arg None) (Double.ready "buildTypes") in
  ∃ li lt ls,
    field (final o) Double.facade "schema" = VRef li ∧
    field (final o) li "type" = VRef lt ∧
    field (final o) li "service" = VRef ls ∧
    field (final o) lt "_id" = VStr (default "Telegram.type" (Some "types")) ∧
    field (final o) ls "_id" = VStr (default "Telegram.service" None).
Proof.
  apply (useSchema_root_ids Double.native Double.facade (VRef 20) (Some "types") None
           (Double.ready "buildTypes")).
  - exists VUndefined. vm_compute. reflexivity.
  - apply Forall_forall. intros e _. apply double_keeps_ids.
Defined.

Lemma useSchema_builds_twice_witness :
  let o := Telegram.useSchema Double.native (VRef Double.facade) (VRef 20)
             VUndefined VUndefined (Double.ready "buildTypes") in
  log o = [Ev Call "buildTypes" VUndefined [VRef 21; VNull; VRef 26; VBool false];
           Ev Call "buildTypes" VUndefined [VRef 22; VNull; VRef 27; VBool true]].
Proof.
  destruct (useSchema_builds_twice Double.native Double.facade 20 VUndefined VUndefined
              (Double.ready "buildTypes") "buildTypes" VUndefined) as (Hlog & _).
  - vm_compute. reflexivity.
  - vm_compute. eexists. reflexivity.
  - vm_compute. reflexivity.
  - cbv zeta. rewrite Hlog. vm_compute. reflexivity.
Defined.

Lemma useSchema_atomic_witness :
  let h := Double.imported "buildTypes" in
  let o := Telegram.useSchema Double.native (VRef Double.facade) (VRef 23)
             VUndefined VUndefined h in
  res o = Raise (Foreign (VStr "TypeError: schemas is not iterable")) ∧
  field (final o) Double.facade "schema" = field h Double.facade "schema".
Proof.
  cbv zeta.
  destruct (useSchema_atomic Double.native Double.facade (VRef 23) VUndefined VUndefined
              (Double.imported "buildTypes")) as [Hfail _].
  - double_leaves_all.
  - split; [vm_compute; reflexivity|].
    eapply Hfail. vm_compute. reflexivity.
Defined.

Lemma useSchema_missing_mapping_witness :
  let o := Telegram.useSchema Double.native (VRef Double.facade) (VRef 23)
             VUndefined VUndefined (Double.ready "buildTypes") in
  ∃ v ev hh,
    res o = Raise (Foreign v) ∧ ev ∈ log o ∧ completes Double.native ev hh = Abrupt v.
Proof.
  cbv zeta.
  destruct (useSchema_missing_mapping Double.native Double.facade 23 VUndefined VUndefined
              (Double.ready "buildTypes") "buildTypes") as (Hraise & _ & _).
  - vm_compute. reflexivity.
  - vm_compute. eexists. reflexivity.
  - destruct (Hraise (Foreign (VStr "TypeError: schemas is not iterable")))
      as (v & ev & hh & Hv & Hin & Hc); [vm_compute; reflexivity|].
    exists v, ev, hh. split; [|exact (conj Hin Hc)].
    rewrite <- Hv. vm_compute. reflexivity.
Defined.

(** With a Type Builder that takes a missing mapping for an empty one, the
    import of a description without methods completes and stores a schema. *)
Lemma useSchema_missing_methods_completes :
  let h := Double.ready "buildTypesLenient" in
  let o := Telegram.useSchema Double.native (VRef Double.facade) (VRef 23)
             VUndefined VUndefined h in
  field h 23 "methods" = VUndefined ∧
  res o = Ok VUndefined ∧
  field (final o) Double.facade "schema" = VRef 28 ∧
  final o !! 28%positive = Some (plain [("type", VRef 26); ("service", VRef 27)]).
Proof. vm_compute. repeat split. Qed.

Lemma createClient_before_import_witness :
  let o0 := Telegram.constructor Double.MTProto Double.TL (Double.world "buildTypes") in
  let o := Telegram.createClient Double.native Double.Client (VRef Double.facade) (final o0) in
  let e := Ev Construct "TelegramClient" VUndefined [VUndefined; Double.MTProto; Double.TL] in
  log o = [e] ∧
  res o = ended (completes Double.native e (final o0)) ∧
  final o = after Double.native e (final o0).
Proof.
  apply (createClient_before_import Double.native Double.Client Double.MTProto Double.TL
           (Double.world "buildTypes") "TelegramClient" Double.facade).
  - vm_compute. reflexivity.
  - vm_compute. reflexivity.
Defined.

(** On a facade that has imported nothing, [createClient] returns a client
    when the client class accepts [undefined] as its schema. *)
Lemma createClient_before_import_returns :
  let o := Telegram.createClient Double.native Double.Client (VRef Double.facade)
             (Double.ready "buildTypes") in
  field (Double.ready "buildTypes") Double.facade "schema" = VUndefined ∧
  res o = Ok (VRef 26) ∧
  final o !! 26%positive =
    Some (plain [("schema", VUndefined); ("MTProto", Double.MTProto); ("TL", Double.TL)]).
Proof. vm_compute. repeat split. Qed.

Lemma reimport_keeps_client_schema_witness :
  let h := Double.imported "buildTypes" in
  let o1 := Telegram.createClient Double.native Double.Client (VRef Double.facade) h in
  let o2 := Telegram.useSchema Double.native (VRef Double.facade) (VRef 20)
              (VStr "t") (VStr "s") (final o1) in
  res o1 = Ok (VRef 29) ∧
  final o2 !! 29%positive = final o1 !! 29%positive ∧
  final o2 !! 28%positive = final o1 !! 28%positive.
Proof.
  cbv zeta.
  destruct (reimport_keeps_client_schema Double.native Double.Client Double.facade
              (VRef 20) (VStr "t") (VStr "s") (Double.imported "buildTypes") (VRef 29))
    as (_ & Hframe & _).
  - vm_compute. reflexivity.
  - split; [vm_compute; reflexivity|]. split.
    + apply Hframe; [done | vm_compute; eexists; reflexivity | double_leaves_all].
    + apply Hframe; [done | vm_compute; eexists; reflexivity | double_leaves_all].
Defined.

Lemma addPublicKey_one_call_witness :
  let o := Telegram.addPublicKey Double.native (VRef Double.facade) (VRef 24)
             (Double.ready "buildTypes") in
  log o = [Ev Call "addKey" (VRef 4) [VRef 26]] ∧
  res o = Ok VUndefined ∧
  final o !! 26%positive =
    Some (plain [("fingerprint", VStr "0xAB"); ("modulus", VStr "m");
                 ("exponent", VStr "010001")]).
Proof.
  cbv zeta.
  destruct (addPublicKey_one_call Double.native Double.facade 24
              (Double.ready "buildTypes") (VRef 4) "addKey") as (Hlog & Hres & Hfin).
  - vm_compute. reflexivity.
  - vm_compute. reflexivity.
  - rewrite Hlog, Hres, Hfin. vm_compute. repeat split.
Defined.

Lemma createRandomPassword_composes_witness :
  let o := Telegram.createRandomPassword Double.native (VRef Double.facade) VUndefined
             (Double.ready "buildTypes") in
  log o = [Ev Call "createRandomBuffer" (VRef 7) [VNum 128];
           Ev Call "buffer2String" (VRef 7) [VRef 26]] ∧
  res o = Ok (VStr "c0ffee").
Proof.
  cbv zeta.
  destruct (createRandomPassword_composes Double.native Double.facade VUndefined
              (Double.ready "buildTypes") (VRef 7) "createRandomBuffer" (VRef 26)
              "buffer2String") as (Hlog & Hres & _).
  - vm_compute. reflexivity.
  - vm_compute. reflexivity.
  - vm_compute. reflexivity.
  - vm_compute. reflexivity.
  - rewrite Hlog, Hres. vm_compute. repeat split.
Defined.

Lemma facade_fields_frame_witness :
  let h := Double.imported "buildTypes" in
  let o := perform Double.native Double.Client (VRef Double.facade)
             (UseSchema (VRef 20) (VStr "t") (VStr "s")) h in
  field (final o) Double.facade "schema" ≠ field h Double.facade "schema" ∧
  field (final o) Double.facade "MTProto" = Double.MTProto ∧
  field (final o) Double.facade "TL" = Double.TL.
Proof.
  cbv zeta.
  destruct (facade_fields_frame Double.native Double.Client Double.facade
              (UseSchema (VRef 20) (VStr "t") (VStr "s")) (Double.imported "buildTypes"))
    as [_ Hkeep].
  - vm_compute. eexists. reflexivity.
  - double_leaves_all.
  - split; [vm_compute; congruence|].
    split; (rewrite Hkeep by done); vm_compute; reflexivity.
Defined.

(** ** Key handling and the utilities *)

(** X1: [createAuthKey] constructs the transport layer's [AuthKey] class on the
    key id and the key body, in that order, and ends as the construction
    ends: its object is returned, what it throws passes through. *)
Theorem createAuthKey_constructs native l id body (h : gmap positive obj) n :
  method h (VRef l) ["MTProto"; "auth"; "AuthKey"] = Some n →
  let e := Ev Construct n VUndefined [id; body] in
  let o := Telegram.createAuthKey native (VRef l) id body h in
  log o = [e] ∧ res o = ended (completes native e h) ∧ final o = after native e h.
Proof.
  intros (f & Hf & Hn)%method_inv. cbv zeta.
  by rewrite createAuthKey_run, Hf, invoke_run, Hn.
Qed.

(** X2: [decryptKey] calls [decryptAuthKey] as a method of the [AuthKey] class,
    so with the class as receiver, on the buffer and the password it was
    given, and ends as that call ends. *)
Theorem decryptKey_delegates native l keyBuffer keyPassword (h : gmap positive obj)
    AuthKey n :
  path h (VRef l) ["MTProto"; "auth"; "AuthKey"] = Ok AuthKey →
  method h AuthKey ["decryptAuthKey"] = Some n →
  let e := Ev Call n AuthKey [keyBuffer; keyPassword] in
  let o := Telegram.decryptKey native (VRef l) keyBuffer keyPassword h in
  log o = [e] ∧ res o = ended (completes native e h) ∧ final o = after native e h.
Proof.
  intros Hk (f & Hf & Hn)%method_inv. cbv zeta.
  rewrite decryptKey_run, Hk. cbn [path] in Hf.
  destruct (read h AuthKey "decryptAuthKey") as [f'|]; [|done].
  injection Hf as ->. by rewrite invoke_run, Hn.
Qed.

(** X3: [string2Buffer] calls the utility of the same name, with the utilities as
    receiver, on the string and the length it was given (the length as it
    is, [undefined] when left out), and ends as that call ends. *)
Theorem string2Buffer_delegates native l string length (h : gmap positive obj)
    utility n :
  path h (VRef l) ["MTProto"; "utility"] = Ok utility →
  method h utility ["string2Buffer"] = Some n →
  let e := Ev Call n utility [string; length] in
  let o := Telegram.string2Buffer native (VRef l) string length h in
  log o = [e] ∧ res o = ended (completes native e h) ∧ final o = after native e h.
Proof.
  intros Hu (f & Hf & Hn)%method_inv. cbv zeta.
  rewrite string2Buffer_run, Hu. cbn [path] in Hf.
  destruct (read h utility "string2Buffer") as [f'|]; [|done].
  injection Hf as ->. by rewrite invoke_run, Hn.
Qed.

(** X4: [buffer2String] calls the utility of the same name, with the utilities as
    receiver, on the buffer and the length it was given, and ends as that
    call ends. *)
Theorem buffer2String_delegates native l buffer length (h : gmap positive obj)
    utility n :
  path h (VRef l) ["MTProto"; "utility"] = Ok utility →
  method h utility ["buffer2String"] = Some n →
  let e := Ev Call n utility [buffer; length] in
  let o := Telegram.buffer2String native (VRef l) buffer length h in
  log o = [e] ∧ res o = ended (completes native e h) ∧ final o = after native e h.
Proof.
  intros Hu (f & Hf & Hn)%method_inv. cbv zeta.
  rewrite buffer2String_run, Hu. cbn [path] in Hf.
  destruct (read h utility "buffer2String") as [f'|]; [|done].
  injection Hf as ->. by rewrite invoke_run, Hn.
Qed.

(** ** When nothing is installed *)

Lemma read_raises (h : gmap positive obj) v p e : read h v p = Raise e → e = TypeError.
Proof. destruct v; simpl; congruence. Qed.

Lemma path_raises (h : gmap positive obj) ps : ∀ v e, path h v ps = Raise e → e = TypeError.
Proof.
  induction ps as [|p ps IH]; intros v e; simpl; [done|].
  destruct (read h v p) as [w|e'] eqn:Hr; [apply IH|].
  intros [= <-]. by eapply read_raises.
Qed.

Ltac type_error :=
  repeat match goal with
  | H : path _ _ _ = Raise _ |- _ => apply path_raises in H; subst
  | H : read _ _ _ = Raise _ |- _ => apply read_raises in H; subst
  end.

(** X5: the five operations that are one call ([createClient], [createAuthKey],
    [decryptKey], [string2Buffer], [buffer2String]) do nothing else: either
    no call is made, the operation raises a TypeError and the heap is as it
    was, or one call is made on the heap as it was, and the operation ends
    as the call ends and leaves what the call leaves. *)
Theorem delegation_one_call_or_none native TC l c (h : gmap positive obj) :
  is_delegation c = true →
  let o := perform native TC (VRef l) c h in
  (log o = [] ∧ res o = Raise TypeError ∧ final o = h) ∨
  (∃ e, log o = [e] ∧ res o = ended (completes native e h) ∧ final o = after native e h).
Proof.
  intros Hc. cbv zeta. destruct c; try done; cbn [perform].
  - rewrite createClient_run, invoke_run. case_match; eauto.
  - rewrite createAuthKey_run. repeat case_match; type_error; eauto.
    rewrite invoke_run. case_match; eauto.
  - rewrite decryptKey_run. repeat case_match; type_error; eauto.
    rewrite invoke_run. case_match; eauto.
  - rewrite string2Buffer_run. repeat case_match; type_error; eauto.
    rewrite invoke_run. case_match; eauto.
  - rewrite buffer2String_run. repeat case_match; type_error; eauto.
    rewrite invoke_run. case_match; eauto.
Qed.

(** X6: no operation completes without a call into a collaborator: when an
    operation made no call, it raised a TypeError, and every object that
    existed is as it was. *)
Theorem perform_no_call native TC l c (h : gmap positive obj) :
  let o := perform native TC (VRef l) c h in
  log o = [] →
  res o = Raise TypeError ∧ ∀ x, is_Some (h !! x) → final o !! x = h !! x.
Proof.
  cbv zeta. destruct c; cbn [perform].
  - rewrite useSchema_run. cbv zeta.
    repeat case_match; type_error; simpl; intros Hlog; try done.
    all: split; [done|]; intros x Hx; untouched.
  - rewrite createClient_run, invoke_run. repeat case_match; simpl; by intros.
  - rewrite addPublicKey_run. cbv zeta.
    repeat case_match; type_error; simpl; intros Hlog; try done.
    all: split; [done|]; intros x Hx; untouched.
  - rewrite createAuthKey_run. repeat case_match; type_error; try done.
    rewrite invoke_run. repeat case_match; simpl; by intros.
  - rewrite decryptKey_run. repeat case_match; type_error; try done.
    rewrite invoke_run. repeat case_match; simpl; by intros.
  - rewrite string2Buffer_run. repeat case_match; type_error; try done.
    rewrite invoke_run. repeat case_match; simpl; by intros.
  - rewrite buffer2String_run. repeat case_match; type_error; try done.
    rewrite invoke_run. repeat case_match; simpl; by intros.
  - rewrite createRandomPassword_run. cbv zeta.
    repeat case_match; type_error; simpl; by intros.
Qed.

(** X7: [addPublicKey] reads the descriptor before anything else: without a
    descriptor ([undefined] or [null]) it raises a TypeError, whatever the
    facade holds, calls nothing and leaves the heap as it was. *)
Theorem addPublicKey_absent_key native this key (h : gmap positive obj) :
  absent key →
  Telegram.addPublicKey native this key h = Out (Raise TypeError) h [].
Proof.
  intros [-> | ->]; unfold Telegram.addPublicKey; by rewrite bind_get.
Qed.

(** X8: without a description ([undefined] or [null]) an import raises a
    TypeError before the Type Builder is called: no call is made, no schema
    is stored, and every object that existed is as it was. *)
Theorem useSchema_absent_description native l schema tp sp (h : gmap positive obj) :
  absent schema →
  let o := Telegram.useSchema native (VRef l) schema tp sp h in
  res o = Raise TypeError ∧ log o = [] ∧
  ∀ x, is_Some (h !! x) → final o !! x = h !! x.
Proof.
  intros Hs. cbv zeta. rewrite useSchema_run. cbv zeta.
  destruct (path h (VRef l) _) as [bt|e] eqn:Hp; type_error; [|done].
  destruct Hs as [-> | ->]; simpl; (split; [done|]; split; [done|]);
    intros x Hx; untouched.
Qed.

(** ** Where an exception comes from *)

Ltac thrown_by_call :=
  right;
  first [ eexists _, [], _, _; split; [done|]; split; [reflexivity|eassumption]
        | eexists _, [_], _, _; split; [done|]; split; [reflexivity|eassumption] ].

(** X9: the operations raise no error of their own.  What an operation raises is
    a TypeError of the language, or it is what the last call it made threw. *)
Theorem perform_raises native TC l c (h : gmap positive obj) e :
  let o := perform native TC (VRef l) c h in
  res o = Raise e →
  e = TypeError ∨
  ∃ v es ev hh, e = Foreign v ∧ log o = es ++ [ev] ∧ completes native ev hh = Abrupt v.
Proof.
  cbv zeta. destruct c; cbn [perform].
  - rewrite useSchema_run. cbv zeta.
    repeat case_match; type_error; simpl; intros [= <-]; first [by left | thrown_by_call].
  - rewrite createClient_run, invoke_run. unfold ended.
    repeat case_match; simpl; intros [= <-]; first [by left | thrown_by_call].
  - rewrite addPublicKey_run. cbv zeta.
    repeat case_match; type_error; simpl; intros [= <-]; first [by left | thrown_by_call].
  - rewrite createAuthKey_run. case_match; type_error; [|intros [= <-]; by left].
    rewrite invoke_run. unfold ended.
    repeat case_match; simpl; intros [= <-]; first [by left | thrown_by_call].
  - rewrite decryptKey_run. repeat case_match; type_error; try (intros [= <-]; by left).
    rewrite invoke_run. unfold ended.
    repeat case_match; simpl; intros [= <-]; first [by left | thrown_by_call].
  - rewrite string2Buffer_run. repeat case_match; type_error; try (intros [= <-]; by left).
    rewrite invoke_run. unfold ended.
    repeat case_match; simpl; intros [= <-]; first [by left | thrown_by_call].
  - rewrite buffer2String_run. repeat case_match; type_error; try (intros [= <-]; by left).
    rewrite invoke_run. unfold ended.
    repeat case_match; simpl; intros [= <-]; first [by left | thrown_by_call].
  - rewrite createRandomPassword_run. cbv zeta. unfold ended.
    repeat case_match; type_error; simpl; intros [= <-]; first [by left | thrown_by_call].
Qed.

(** X13: when generating the buffer fails, [createRandomPassword] stops there: it
    raises what [createRandomBuffer] threw and [buffer2String] is not
    called. *)
Theorem createRandomPassword_buffer_fails native l size (h : gmap positive obj)
    util n1 v :
  path h (VRef l) ["MTProto"; "utility"] = Ok util →
  method h util ["createRandomBuffer"] = Some n1 →
  let e1 := Ev Call n1 util [default_arg size (VNum 128)] in
  completes native e1 h = Abrupt v →
  let o := Telegram.createRandomPassword native (VRef l) size h in
  log o = [e1] ∧ res o = Raise (Foreign v) ∧ final o = after native e1 h.
Proof.
  intros Hu (f1 & Hf1 & Hn1)%method_inv. cbv zeta. intros Hv.
  rewrite createRandomPassword_run, Hu. cbv zeta. cbn [path] in Hf1.
  destruct (read h util "createRandomBuffer") as [f1'|]; [|done].
  injection Hf1 as ->. by rewrite Hn1, Hv.
Qed.

(** ** Construction on any two values *)

(** X14: the constructor tests its arguments for truthiness: it fails exactly
    when one of them is falsy, which [0], the empty string and [false] are as
    well as [undefined] and [null], and always with the same error; nothing
    is called and no object that existed is touched.  When it succeeds the
    new object holds the two arguments. *)
Theorem constructor_truthiness (MTProto TL : value) (h : gmap positive obj) :
  let o := Telegram.constructor MTProto TL h in
  ((∃ e, res o = Raise e) ↔ truthy MTProto = false ∨ truthy TL = false) ∧
  (∀ e, res o = Raise e →
        e = Error "You must invoke new Telegram(MTProto, TypeLanguage)") ∧
  (∀ l, res o = Ok (VRef l) →
        h !! l = None ∧
        field (final o) l "MTProto" = MTProto ∧ field (final o) l "TL" = TL) ∧
  log o = [] ∧
  (∀ x, is_Some (h !! x) → final o !! x = h !! x).
Proof.
  cbv zeta. rewrite constructor_run. cbv zeta.
  assert (Hframe : ∀ (o : obj) x,
            is_Some (h !! x) → <[fresh (dom h) := o]> h !! x = h !! x).
  { intros o x Hx. untouched. }
  destruct (truthy MTProto), (truthy TL); simpl.
  2-4: split; [split; [auto | eauto] |];
       split; [congruence|]; split; [done|]; split; [done | by auto].
  split; [split; [by intros [e He] | by intros [|]] |].
  split; [done|]. split; [|split; [done | by auto]].
  intros l [= <-]. split; [apply fresh_unused|].
  rewrite !field_insert. unfold plain. simpl.
  rewrite lookup_insert_eq. rewrite lookup_insert_ne by done.
  by rewrite lookup_insert_eq.
Qed.

(** ** Sequences of operations *)

Lemma perform_all_alive native TC l cs : ∀ (h : gmap positive obj) x,
  is_Some (h !! x) → is_Some ((perform_all native TC (VRef l) cs h).1 !! x).
Proof.
  induction cs as [|c cs IH]; intros h x Hx; simpl; [done|].
  by apply IH, perform_alive.
Qed.

(** X10: over any sequence of operations on a facade, the fields of the facade
    other than [schema] stay what they were, [MTProto] and [TL] among them;
    and when none of the operations is an import the facade object does not
    change at all.  The calls made are taken not to write to the facade. *)
Theorem perform_all_keeps_layers native TC l cs : ∀ (h : gmap positive obj),
  let r := perform_all native TC (VRef l) cs h in
  is_Some (h !! l) →
  Forall (leaves native l) r.2 →
  (∀ p, p ≠ "schema" → field r.1 l p = field h l p) ∧
  (forallb (λ c, negb (is_import c)) cs = true → r.1 !! l = h !! l).
Proof.
  induction cs as [|c cs IH]; intros h; cbv zeta; simpl; intros Hl Hlog; [done|].
  apply Forall_app in Hlog as [Hc Hcs].
  destruct (IH (final (perform native TC (VRef l) c h))) as [IH1 IH2];
    [by apply perform_alive | done |].
  split.
  - intros p Hp. rewrite IH1 by done. by apply perform_fields.
  - intros [Himp Hrest]%andb_prop. rewrite IH2 by done.
    apply perform_frame; auto. right; left. by destruct (is_import c).
Qed.

(** X11: the class writes to no object but the facade.  Over any sequence of
    operations, an object that existed before and is not the facade (a
    description, a key descriptor, a buffer, a layer) is afterwards as it
    was, unless a collaborator wrote to it. *)
Theorem perform_all_frame native TC l cs x : ∀ (h : gmap positive obj),
  let r := perform_all native TC (VRef l) cs h in
  x ≠ l →
  is_Some (h !! x) →
  Forall (leaves native x) r.2 →
  r.1 !! x = h !! x.
Proof.
  induction cs as [|c cs IH]; intros h; cbv zeta; simpl; intros Hx Hal Hlog; [done|].
  apply Forall_app in Hlog as [Hc Hcs].
  rewrite IH; [|done|by apply perform_alive|done].
  apply perform_frame; auto.
Qed.

(** ** A client after an import *)

Lemma set_callable (h : gmap positive obj) l ps x :
  <[l := Obj (callable (default (Obj None ∅) (h !! l))) ps]> h !! x ≫= callable
  = h !! x ≫= callable.
Proof.
  destruct (decide (l = x)) as [->|Hne]; [|by rewrite lookup_insert_ne].
  rewrite lookup_insert_eq. by destruct (h !! x).
Qed.

Lemma alloc_callable (h : gmap positive obj) o x :
  is_Some (h !! x) → <[fresh (dom h) := o]> h !! x ≫= callable = h !! x ≫= callable.
Proof. intros Hx. rewrite lookup_insert_ne; [done|]. by apply not_eq_sym, fresh_ne. Qed.

Ltac kept :=
  repeat first
    [ rewrite set_callable
    | rewrite alloc_callable by alive
    | rewrite after_callable by alive ];
  try done.

Lemma perform_code native TC l c (h : gmap positive obj) x :
  is_Some (h !! x) →
  final (perform native TC (VRef l) c h) !! x ≫= callable = h !! x ≫= callable.
Proof.
  intros Hx. destruct c; cbn [perform].
  - rewrite useSchema_run. cbv zeta. repeat case_match; simpl; kept.
  - rewrite createClient_run, invoke_run. repeat case_match; simpl; kept.
  - rewrite addPublicKey_run. cbv zeta. repeat case_match; simpl; kept.
  - rewrite createAuthKey_run. repeat case_match; try done.
    rewrite invoke_run. repeat case_match; simpl; kept.
  - rewrite decryptKey_run. repeat case_match; try done.
    rewrite invoke_run. repeat case_match; simpl; kept.
  - rewrite string2Buffer_run. repeat case_match; try done.
    rewrite invoke_run. repeat case_match; simpl; kept.
  - rewrite buffer2String_run. repeat case_match; try done.
    rewrite invoke_run. repeat case_match; simpl; kept.
  - rewrite createRandomPassword_run. cbv zeta. repeat case_match; simpl; kept.
Qed.

Lemma perform_callable native TC l c (h : gmap positive obj) v n :
  callable_at h v = Some n → callable_at (final (perform native TC (VRef l) c h)) v = Some n.
Proof.
  intros Hv. destruct (callable_at_is_Some _ _ _ Hv) as (x & -> & Hx).
  simpl in *. by rewrite perform_code.
Qed.

(** X12: after an import that completed, [createClient] constructs the client
    class on the schema that import stored, a new object that holds the type
    root and the service root, and on the two layers the facade was
    constructed with.  The Type Builder calls are taken not to write to the
    facade. *)
Theorem createClient_after_import native TC l schema tp sp (h : gmap positive obj) n r :
  let o1 := Telegram.useSchema native (VRef l) schema tp sp h in
  let o2 := Telegram.createClient native TC (VRef l) (final o1) in
  res o1 = Ok r →
  callable_at h TC = Some n →
  Forall (leaves native l) (log o1) →
  ∃ li lt ls,
    h !! li = None ∧
    final o1 !! li = Some (plain [("type", VRef lt); ("service", VRef ls)]) ∧
    log o2 = [Ev Construct n VUndefined [VRef li; field h l "MTProto"; field h l "TL"]] ∧
    res o2 = ended (completes native
                      (Ev Construct n VUndefined
                          [VRef li; field h l "MTProto"; field h l "TL"]) (final o1)).
Proof.
  cbv zeta. intros Hr Hn Hlog.
  assert (Hl : is_Some (h !! l)).
  { revert Hr. rewrite useSchema_run.
    destruct (path h (VRef l) _) as [bt|] eqn:Hbt; [|done].
    intros _. by eapply path_this_alive. }
  pose proof (perform_callable native TC l (UseSchema schema tp sp) h TC n Hn) as Hn'.
  pose proof (perform_fields native TC l (UseSchema schema tp sp) h "MTProto" Hl Hlog) as HM.
  pose proof (perform_fields native TC l (UseSchema schema tp sp) h "TL" Hl Hlog) as HT.
  cbn [perform] in Hn', HM, HT.
  rewrite createClient_run, invoke_run, Hn', HM, HT by done. cbv zeta.
  clear Hn' HM HT Hlog. revert Hr. rewrite useSchema_run. cbv zeta.
  repeat case_match; simpl; intros Hr; try done.
  match goal with
  | |- context [fresh (dom (after native ?e2 ?h3))] =>
      set (h4 := after native e2 h3)
  end.
  assert (A4 : is_Some (h4 !! l)) by (subst h4; alive).
  assert (fresh (dom h4) ≠ l) by (apply not_eq_sym, fresh_ne, A4).
  eexists (fresh (dom h4)), _, _. repeat split.
  - destruct (h !! fresh (dom h4)) eqn:E; [|done].
    assert (is_Some (h4 !! fresh (dom h4))) as [? Hc] by (subst h4; alive; by rewrite E).
    by rewrite fresh_unused in Hc.
  - rewrite lookup_insert_ne by done. by rewrite lookup_insert_eq.
  - rewrite field_insert. simpl. by rewrite lookup_insert_eq.
  - rewrite field_insert. simpl. by rewrite lookup_insert_eq.
Qed.

(** ** Prefixes of any kind *)

(** X15: the prefixes are not checked.  Whatever value is passed becomes the
    [_id] of its root; only [undefined] is replaced by the default, so [null]
    stays [null].  The Type Builder calls are taken to keep the [_id] of
    existing nodes. *)
Theorem useSchema_prefix_as_given native l schema tp sp (h : gmap positive obj) :
  let o := Telegram.useSchema native (VRef l) schema tp sp h in
  (∃ r, res o = Ok r) →
  Forall (keeps_ids native) (log o) →
  ∃ li lt ls,
    field (final o) l "schema" = VRef li ∧
    field (final o) li "type" = VRef lt ∧
    field (final o) li "service" = VRef ls ∧
    field (final o) lt "_id" = default_arg tp (VStr "Telegram.type") ∧
    field (final o) ls "_id" = default_arg sp (VStr "Telegram.service").
Proof.
  cbv zeta. rewrite useSchema_run. cbv zeta.
  destruct (path h (VRef l) _) as [bt|] eqn:Hbt; [|by intros [r Hr]].
  assert (Hl : is_Some (h !! l)) by (by eapply path_this_alive).
  repeat case_match; simpl; intros [r Hr] Hlog; try done.
  apply Forall_cons in Hlog as [K1 Hlog]. apply Forall_cons in Hlog as [K2 _].
  set (lt := fresh (dom h)) in *.
  set (h1 := <[lt := _]> h) in *.
  set (h2 := after native _ h1) in *.
  set (ls := fresh (dom h2)) in *.
  set (h3 := <[ls := _]> h2) in *.
  set (h4 := after native _ h3) in *.
  set (li := fresh (dom h4)) in *.
  set (h5 := <[li := _]> h4) in *.
  assert (B1 : is_Some (h1 !! lt)) by (subst h1; rewrite lookup_insert_eq; eauto).
  assert (A2 : is_Some (h2 !! l)) by (subst h2 h1; alive).
  assert (B2 : is_Some (h2 !! lt)) by (subst h2; alive).
  assert (B3 : is_Some (h3 !! lt)) by (subst h3; alive).
  assert (C3 : is_Some (h3 !! ls)) by (subst h3; rewrite lookup_insert_eq; eauto).
  assert (A4 : is_Some (h4 !! l)) by (subst h4 h3; alive).
  assert (B4 : is_Some (h4 !! lt)) by (subst h4; alive).
  assert (C4 : is_Some (h4 !! ls)) by (subst h4; alive).
  assert (lt ≠ l) by (apply not_eq_sym, fresh_ne, Hl).
  assert (ls ≠ l) by (apply not_eq_sym, fresh_ne, A2).
  assert (ls ≠ lt) by (apply not_eq_sym, fresh_ne, B2).
  assert (li ≠ l) by (apply not_eq_sym, fresh_ne, A4).
  assert (li ≠ lt) by (apply not_eq_sym, fresh_ne, B4).
  assert (li ≠ ls) by (apply not_eq_sym, fresh_ne, C4).
  exists li, lt, ls. repeat split.
  - rewrite field_insert. simpl. by rewrite lookup_insert_eq.
  - rewrite field_insert_ne by done. subst h5. rewrite field_insert.
    unfold plain; simpl. by rewrite lookup_insert_eq.
  - rewrite field_insert_ne by done. subst h5. rewrite field_insert.
    unfold plain; simpl. rewrite lookup_insert_ne by done. by rewrite lookup_insert_eq.
  - rewrite field_insert_ne by done. subst h5. rewrite field_insert_ne by done.
    subst h4. rewrite K2 by done. subst h3. rewrite field_insert_ne by done.
    subst h2. rewrite K1 by done. subst h1. rewrite field_insert.
    unfold plain; simpl. by rewrite lookup_insert_eq.
  - rewrite field_insert_ne by done. subst h5. rewrite field_insert_ne by done.
    subst h4. rewrite K2 by done. subst h3. rewrite field_insert.
    unfold plain; simpl. by rewrite lookup_insert_eq.
Qed.

(** ** Further runs against the stand-ins *)

Lemma createAuthKey_constructs_witness :
  let o := Telegram.createAuthKey Double.native (VRef Double.facade)
             (VStr "id") (VStr "body") (Double.ready "buildTypes") in
  log o = [Ev Construct "AuthKey" VUndefined [VStr "id"; VStr "body"]] ∧
  res o = Ok (VRef 26) ∧
  final o !! 26%positive = Some (plain [("id", VStr "id"); ("value", VStr "body")]).
Proof.
  cbv zeta.
  destruct (createAuthKey_constructs Double.native Double.facade (VStr "id") (VStr "body")
              (Double.ready "buildTypes") "AuthKey") as (Hlog & Hres & Hfin).
  - vm_compute. reflexivity.
  - rewrite Hlog, Hres, Hfin. vm_compute. repeat split.
Defined.

Lemma decryptKey_delegates_witness :
  let o := Telegram.decryptKey Double.native (VRef Double.facade)
             (VRef 8) (VStr "password") (Double.ready "buildTypes") in
  log o = [Ev Call "decryptAuthKey" (VRef 6) [VRef 8; VStr "password"]] ∧
  res o = Ok (VRef 26).
Proof.
  cbv zeta.
  destruct (decryptKey_delegates Double.native Double.facade (VRef 8) (VStr "password")
              (Double.ready "buildTypes") (VRef 6) "decryptAuthKey") as (Hlog & Hres & _).
  - vm_compute. reflexivity.
  - vm_compute. reflexivity.
  - rewrite Hlog, Hres. vm_compute. repeat split.
Defined.

Lemma string2Buffer_delegates_witness :
  let o := Telegram.string2Buffer Double.native (VRef Double.facade)
             (VStr "abc") VUndefined (Double.ready "buildTypes") in
  log o = [Ev Call "string2Buffer" (VRef 7) [VStr "abc"; VUndefined]] ∧
  res o = Ok (VRef 26).
Proof.
  cbv zeta.
  destruct (string2Buffer_delegates Double.native Double.facade (VStr "abc") VUndefined
              (Double.ready "buildTypes") (VRef 7) "string2Buffer") as (Hlog & Hres & _).
  - vm_compute. reflexivity.
  - vm_compute. reflexivity.
  - rewrite Hlog, Hres. vm_compute. repeat split.
Defined.

Lemma buffer2String_delegates_witness :
  let o := Telegram.buffer2String Double.native (VRef Double.facade)
             (VRef 8) (VNum 4) (Double.ready "buildTypes") in
  log o = [Ev Call "buffer2String" (VRef 7) [VRef 8; VNum 4]] ∧
  res o = Ok (VStr "c0ffee").
Proof.
  cbv zeta.
  destruct (buffer2String_delegates Double.native Double.facade (VRef 8) (VNum 4)
              (Double.ready "buildTypes") (VRef 7) "buffer2String") as (Hlog & Hres & _).
  - vm_compute. reflexivity.
  - vm_compute. reflexivity.
  - rewrite Hlog, Hres. vm_compute. repeat split.
Defined.

Lemma delegation_one_call_or_none_witness :
  let o := perform Double.native VUndefined (VRef Double.facade) CreateClient
             (Double.ready "buildTypes") in
  log o = [] ∧ res o = Raise TypeError ∧ final o = Double.ready "buildTypes".
Proof.
  cbv zeta.
  destruct (delegation_one_call_or_none Double.native VUndefined Double.facade CreateClient
              (Double.ready "buildTypes")) as [H | (e & He & _)].
  - reflexivity.
  - exact H.
  - exfalso. vm_compute in He. discriminate He.
Defined.

Lemma perform_no_call_witness :
  let h := <[26%positive := plain [("MTProto", VRef 8); ("TL", VRef 8)]]>
             (Double.ready "buildTypes") in
  let o := perform Double.native Double.Client (VRef 26) (CreateAuthKey (VStr "id") (VStr "body")) h in
  res o = Raise TypeError ∧ final o !! 26%positive = h !! 26%positive.
Proof.
  cbv zeta.
  destruct (perform_no_call Double.native Double.Client 26
              (CreateAuthKey (VStr "id") (VStr "body"))
              (<[26%positive := plain [("MTProto", VRef 8); ("TL", VRef 8)]]>
                 (Double.ready "buildTypes"))) as [Hres Hframe].
  - vm_compute. reflexivity.
  - split; [exact Hres|]. apply Hframe. vm_compute. eexists. reflexivity.
Defined.

Lemma addPublicKey_absent_key_witness :
  Telegram.addPublicKey Double.native (VRef Double.facade) VNull (Double.ready "buildTypes")
  = Out (Raise TypeError) (Double.ready "buildTypes") [].
Proof. apply addPublicKey_absent_key. by right. Defined.

Lemma useSchema_absent_description_witness :
  let h := Double.imported "buildTypes" in
  let o := Telegram.useSchema Double.native (VRef Double.facade) VUndefined
             VUndefined VUndefined h in
  res o = Raise TypeError ∧ log o = [] ∧
  final o !! Double.facade = h !! Double.facade.
Proof.
  cbv zeta.
  destruct (useSchema_absent_description Double.native Double.facade VUndefined
              VUndefined VUndefined (Double.imported "buildTypes")) as (Hres & Hlog & Hframe).
  - by left.
  - split; [exact Hres|]. split; [exact Hlog|].
    apply Hframe. vm_compute. eexists. reflexivity.
Defined.

Lemma perform_raises_witness :
  let o := perform Double.native Double.Client (VRef Double.facade)
             (UseSchema (VRef 23) VUndefined VUndefined) (Double.ready "buildTypes") in
  ∃ v es ev hh,
    res o = Raise (Foreign v) ∧ log o = es ++ [ev] ∧
    completes Double.native ev hh = Abrupt v.
Proof.
  cbv zeta.
  destruct (perform_raises Double.native Double.Client Double.facade
              (UseSchema (VRef 23) VUndefined VUndefined) (Double.ready "buildTypes")
              (Foreign (VStr "TypeError: schemas is not iterable")))
    as [H | (v & es & ev & hh & Hv & Hlog & Hc)].
  - vm_compute. reflexivity.
  - discriminate H.
  - exists v, es, ev, hh. split; [|exact (conj Hlog Hc)].
    rewrite <- Hv. vm_compute. reflexivity.
Defined.

Lemma createRandomPassword_buffer_fails_witness :
  let o := Telegram.createRandomPassword Double.native (VRef Double.facade) (VStr "big")
             (Double.ready "buildTypes") in
  log o = [Ev Call "createRandomBuffer" (VRef 7) [VStr "big"]] ∧
  res o = Raise (Foreign (VStr "RangeError")).
Proof.
  cbv zeta.
  destruct (createRandomPassword_buffer_fails Double.native Double.facade (VStr "big")
              (Double.ready "buildTypes") (VRef 7) "createRandomBuffer" (VStr "RangeError"))
    as (Hlog & Hres & _).
  - vm_compute. reflexivity.
  - vm_compute. reflexivity.
  - vm_compute. reflexivity.
  - rewrite Hlog, Hres. vm_compute. repeat split.
Defined.

Lemma perform_all_keeps_layers_witness :
  let r := perform_all Double.native Double.Client (VRef Double.facade)
             [AddPublicKey (VRef 24); UseSchema (VRef 20) VUndefined VUndefined;
              CreateClient; CreateRandomPassword VUndefined]
             (Double.ready "buildTypes") in
  length r.2 = 6%nat ∧
  field r.1 Double.facade "MTProto" = Double.MTProto ∧
  field r.1 Double.facade "TL" = Double.TL.
Proof.
  cbv zeta.
  destruct (perform_all_keeps_layers Double.native Double.Client Double.facade
              [AddPublicKey (VRef 24); UseSchema (VRef 20) VUndefined VUndefined;
               CreateClient; CreateRandomPassword VUndefined]
              (Double.ready "buildTypes")) as [Hkeep _].
  - vm_compute. eexists. reflexivity.
  - double_leaves_all.
  - split; [vm_compute; reflexivity|].
    split; (rewrite Hkeep by done); vm_compute; reflexivity.
Defined.

Lemma perform_all_frame_witness :
  let h := Double.ready "buildTypes" in
  let r := perform_all Double.native Double.Client (VRef Double.facade)
             [UseSchema (VRef 20) VUndefined VUndefined; AddPublicKey (VRef 24);
              CreateClient]
             h in
  r.1 !! 20%positive = h !! 20%positive ∧ r.1 !! 24%positive = h !! 24%positive.
Proof.
  cbv zeta. split.
  - apply perform_all_frame; [done | vm_compute; eexists; reflexivity | double_leaves_all].
  - apply perform_all_frame; [done | vm_compute; eexists; reflexivity | double_leaves_all].
Defined.

Lemma createClient_after_import_witness :
  let o1 := Telegram.useSchema Double.native (VRef Double.facade) (VRef 20)
              VUndefined VUndefined (Double.ready "buildTypes") in
  let o2 := Telegram.createClient Double.native Double.Client (VRef Double.facade)
              (final o1) in
  ∃ li lt ls,
    final o1 !! li = Some (plain [("type", VRef lt); ("service", VRef ls)]) ∧
    log o2 = [Ev Construct "TelegramClient" VUndefined
                [VRef li; Double.MTProto; Double.TL]].
Proof.
  cbv zeta.
  destruct (createClient_after_import Double.native Double.Client Double.facade (VRef 20)
              VUndefined VUndefined (Double.ready "buildTypes") "TelegramClient" VUndefined)
    as (li & lt & ls & _ & Hfin & Hlog & _).
  - vm_compute. reflexivity.
  - vm_compute. reflexivity.
  - double_leaves_all.
  - exists li, lt, ls. split; [exact Hfin|]. rewrite Hlog. vm_compute. reflexivity.
Defined.

Lemma useSchema_prefix_as_given_witness :
  let o := Telegram.useSchema Double.native (VRef Double.facade) (VRef 20)
             VNull (VNum 7) (Double.ready "buildTypes") in
  ∃ li lt ls,
    field (final o) Double.facade "schema" = VRef li ∧
    field (final o) li "type" = VRef lt ∧
    field (final o) li "service" = VRef ls ∧
    field (final o) lt "_id" = VNull ∧
    field (final o) ls "_id" = VNum 7.
Proof.
  apply (useSchema_prefix_as_given Double.native Double.facade (VRef 20) VNull (VNum 7)
           (Double.ready "buildTypes")).
  - exists VUndefined. vm_compute. reflexivity.
  - apply Forall_forall. intros e _. apply double_keeps_ids.
Defined.
